(** * pfinance ml-service: the evaluation and matching engine

    A shallow embedding of [ml-service/eval_runner.py] (text, date and
    amount normalisation, the fuzzy text matcher, the amount
    reconciliation cascade, the greedy transaction matcher and the
    metrics aggregator) and of [append_history] from
    [ml-service/scripts/update_benchmark_snapshot.py].

    Conventions of the embedding.
    - A Python [str] is a [string] whose characters are the code points
      U+0000..U+00FF; the character classes below ([isspace], [\w],
      [\d], [lower]) are CPython's Unicode tables restricted to that
      range.
    - A Python [float] is an exact rational ([Q]); the only non-finite
      value the code manufactures itself, [float('inf')], is the extra
      constructor [PInf] of [xfloat].  Rounding, overflow and NaN are
      outside the model.  Where a property is about overflow or
      NaN, the arithmetic concerned is embedded a second time on
      binary64 floats, in the module [F64].
    - [None] is [None]; a function that catches [ValueError] is modelled
      by an [option]-valued helper whose [None] is the raised error.
    - A transaction [dict] is a record with one slot per key the code
      reads; a slot distinguishes an absent key from a key bound to
      [None], as [dict.get] does. *)

From Stdlib Require Import ZArith QArith Qabs Lia Lqa String Ascii.
From Stdlib Require Import Floats.
From stdpp Require Import base list sets gmap strings pretty.

Local Open Scope Q_scope.

(* ===================================================================== *)
(** * Part I. Definitions                                                *)
(* ===================================================================== *)

(** ** Characters and strings *)

Module Chars.

Definition code (c : ascii) : N := N_of_ascii c.

Definition between (lo hi : N) (c : ascii) : bool :=
  ((lo <=? code c) && (code c <=? hi))%N.

(** [str.isspace], which is also the class [\s] of [re] on [str]
    patterns and the set [str.strip()] and [str.split()] work with. *)
Definition isspace (c : ascii) : bool :=
  between 9 13 c || between 28 32 c || (code c =? 133)%N || (code c =? 160)%N.

(** [\d] of [re] on [str] patterns. *)
Definition isdigit (c : ascii) : bool := between 48 57 c.

(** [\w] of [re] on [str] patterns: alphanumeric or underscore. *)
Definition isword (c : ascii) : bool :=
  isdigit c || between 65 90 c || (code c =? 95)%N || between 97 122 c
  || (code c =? 170)%N || between 178 179 c || (code c =? 181)%N
  || between 185 186 c || between 188 190 c
  || between 192 214 c || between 216 246 c || between 248 255 c.

(** [str.lower] on one character. *)
Definition lower (c : ascii) : ascii :=
  if between 65 90 c || between 192 214 c || between 216 222 c
  then ascii_of_N (code c + 32)
  else c.

End Chars.

Module Str.

Definition chars (s : string) : list ascii := list_ascii_of_string s.
Definition of_chars (l : list ascii) : string := string_of_list_ascii l.

(** Truthiness of a [str]: non-empty. *)
Definition truthy (s : string) : bool :=
  match s with EmptyString => false | String _ _ => true end.

Definition lower (s : string) : string :=
  of_chars (map Chars.lower (chars s)).

Fixpoint lstrip (l : list ascii) : list ascii :=
  match l with
  | c :: l' => if Chars.isspace c then lstrip l' else l
  | [] => []
  end.

(** [s.strip()] *)
Definition strip (s : string) : string :=
  of_chars (rev (lstrip (rev (lstrip (chars s))))).

(** [needle in hay] *)
Fixpoint contains_at (needle hay : list ascii) : bool :=
  match needle, hay with
  | [], _ => true
  | _ :: _, [] => false
  | a :: n', b :: h' => if Ascii.eqb a b then contains_at n' h' else false
  end.

Fixpoint contains_chars (needle hay : list ascii) : bool :=
  contains_at needle hay
  || match hay with
     | [] => false
     | _ :: h' => contains_chars needle h'
     end.

Definition contains (needle hay : string) : bool :=
  contains_chars (chars needle) (chars hay).

(** [s.split()]: the maximal runs of non-whitespace characters.
    [cur] is the run being read, in reverse. *)
Fixpoint split_chars (cur : list ascii) (l : list ascii) : list string :=
  let flush := match cur with [] => [] | _ => [of_chars (rev cur)] end in
  match l with
  | [] => flush
  | c :: l' =>
      if Chars.isspace c then flush ++ split_chars [] l'
      else split_chars (c :: cur) l'
  end.

Definition split (s : string) : list string := split_chars [] (chars s).

End Str.

(** ** Text normaliser and fuzzy matcher (eval_runner.py, lines 80-116) *)

(** [re.sub(r'\s+', ' ', text)]: every maximal run of whitespace becomes
    one space.  [in_run] says that the previous character was whitespace. *)
Fixpoint collapse_from (in_run : bool) (l : list ascii) : list ascii :=
  match l with
  | [] => []
  | c :: l' =>
      if Chars.isspace c
      then (if in_run then [] else [" "%char]) ++ collapse_from true l'
      else c :: collapse_from false l'
  end.

Definition collapse_whitespace (l : list ascii) : list ascii :=
  collapse_from false l.

(** [re.sub(r'[^\w\s]', '', text)] *)
Definition strip_punctuation (l : list ascii) : list ascii :=
  filter (fun c => Is_true (Chars.isword c || Chars.isspace c)) l.

Definition normalize_text (text : option string) : string :=
  match text with
  | None => ""
  | Some text =>
      if negb (Str.truthy text) then ""
      else
        let text := Str.strip (Str.lower text) in
        let text := Str.of_chars (collapse_whitespace (Str.chars text)) in
        let text := Str.of_chars (strip_punctuation (Str.chars text)) in
        text
  end.

(** [len(a) / len(b)] on two sets: true division of two [int]s. *)
Definition ratio (n m : nat) : Q := inject_Z (Z.of_nat n) / inject_Z (Z.of_nat m).

Definition fuzzy_match_score (pred truth : option string) : Q :=
  let pred := normalize_text pred in
  let truth := normalize_text truth in
  if negb (Str.truthy pred) || negb (Str.truthy truth) then 0
  else if String.eqb pred truth then 1
  else if Str.contains pred truth || Str.contains truth pred then 9 # 10
  else
    let pred_tokens : gset string := list_to_set (Str.split pred) in
    let truth_tokens : gset string := list_to_set (Str.split truth) in
    if bool_decide (pred_tokens = ∅) || bool_decide (truth_tokens = ∅) then 0
    else
      let intersection := pred_tokens ∩ truth_tokens in
      let union := pred_tokens ∪ truth_tokens in
      ratio (size intersection) (size union).


(** ** [datetime.strptime] and [strftime], as far as [normalize_date]
    uses them (CPython's [_strptime.py], C locale)

    [strptime] turns the format into a regular expression, compiled
    with [IGNORECASE], matches it at the start of the data with
    backtracking, refuses unconverted trailing data, and builds a date
    from the groups it found; every failure is a [ValueError]. *)

Module Strptime.

Local Open Scope N_scope.

Inductive directive := DY | Dm | Dd | Db | DB.

(** One element of the compiled pattern: an escaped literal
    character, [\s+] (a whitespace run of the format), or the group of
    a directive. *)
Inductive item :=
| Lit (c : ascii)
| Spaces
| Dir (d : directive).

(** [TimeRE.pattern], for the five directives that [formats] uses:
    [None] is the [ValueError] of a stray [%] or of a bad directive (any
    other directive is refused here). *)
Fixpoint pattern_from (in_run : bool) (fmt : list ascii) : option (list item) :=
  match fmt with
  | [] => Some []
  | c :: fmt' =>
      if Ascii.eqb c "%" then
        match fmt' with
        | d :: fmt'' =>
            let dir :=
              if Ascii.eqb d "Y" then Some DY
              else if Ascii.eqb d "m" then Some Dm
              else if Ascii.eqb d "d" then Some Dd
              else if Ascii.eqb d "b" then Some Db
              else if Ascii.eqb d "B" then Some DB
              else None in
            match dir, pattern_from false fmt'' with
            | Some dir, Some its => Some (Dir dir :: its)
            | _, _ => None
            end
        | [] => None
        end
      else if Chars.isspace c then
        match pattern_from true fmt' with
        | Some its => Some (if in_run then its else Spaces :: its)
        | None => None
        end
      else
        match pattern_from false fmt' with
        | Some its => Some (Lit c :: its)
        | None => None
        end
  end.

Definition pattern (fmt : string) : option (list item) :=
  pattern_from false (Str.chars fmt).

(** [int(text)] on a matched group: decimal digits, blanks ignored. *)
Definition int_of (text : list ascii) : N :=
  fold_left
    (fun acc c => if Chars.isdigit c then 10 * acc + (Chars.code c - 48) else acc)
    text 0.

Definition just (c : ascii) : ascii -> bool := Ascii.eqb c.

(** The alternatives [p1], [p1 p2] and [p1 p2 p3 p4] of a group: the
    value and the rest of the data when the alternative matches here. *)
Definition alt1 (p1 : ascii -> bool) (l : list ascii) : list (N * list ascii) :=
  match l with
  | a :: rest => if p1 a then [(int_of [a], rest)] else []
  | _ => []
  end.

Definition alt2 (p1 p2 : ascii -> bool) (l : list ascii) : list (N * list ascii) :=
  match l with
  | a :: b :: rest => if p1 a && p2 b then [(int_of [a; b], rest)] else []
  | _ => []
  end.

Definition alt4 (p : ascii -> bool) (l : list ascii) : list (N * list ascii) :=
  match l with
  | a :: b :: c :: d :: rest =>
      if p a && p b && p c && p d then [(int_of [a; b; c; d], rest)] else []
  | _ => []
  end.

(** A month name, matched without regard to case; the value is the
    month's number. *)
Fixpoint name_at (name l : list ascii) : option (list ascii) :=
  match name, l with
  | [], _ => Some l
  | _ :: _, [] => None
  | a :: name', b :: l' =>
      if Ascii.eqb a (Chars.lower b) then name_at name' l' else None
  end.

Definition alt_name (entry : string * N) (l : list ascii) : list (N * list ascii) :=
  match name_at (Str.chars (fst entry)) l with
  | Some rest => [(snd entry, rest)]
  | None => []
  end.

(** [LocaleTime.a_month] and [f_month], lower-cased, in the order
    [__seqToRE] gives their alternatives (longest first, ties in
    calendar order). *)
Definition a_month : list (string * N) :=
  [("jan", 1); ("feb", 2); ("mar", 3); ("apr", 4); ("may", 5); ("jun", 6);
   ("jul", 7); ("aug", 8); ("sep", 9); ("oct", 10); ("nov", 11); ("dec", 12)]%string.

Definition f_month : list (string * N) :=
  [("september", 9); ("february", 2); ("november", 11); ("december", 12);
   ("january", 1); ("october", 10); ("august", 8); ("march", 3); ("april", 4);
   ("june", 6); ("july", 7); ("may", 5)]%string.

(** The group of a directive: its alternatives in the order the regular
    expression tries them. *)
Definition candidates (d : directive) (l : list ascii) : list (N * list ascii) :=
  match d with
  | DY => alt4 Chars.isdigit l
  | Dm =>
      alt2 (just "1") (Chars.between 48 50) l
      ++ alt2 (just "0") (Chars.between 49 57) l
      ++ alt1 (Chars.between 49 57) l
  | Dd =>
      alt2 (just "3") (Chars.between 48 49) l
      ++ alt2 (Chars.between 49 50) Chars.isdigit l
      ++ alt2 (just "0") (Chars.between 49 57) l
      ++ alt1 (Chars.between 49 57) l
      ++ alt2 (just " ") (Chars.between 49 57) l
  | Db => concat (map (fun e => alt_name e l) a_month)
  | DB => concat (map (fun e => alt_name e l) f_month)
  end.

(** The values found so far: year, month, day. *)
Record found := { year : N; month : N; day : N }.

Definition record (d : directive) (v : N) (f : found) : found :=
  match d with
  | DY => {| year := v; month := month f; day := day f |}
  | Dm | Db | DB => {| year := year f; month := v; day := day f |}
  | Dd => {| year := year f; month := month f; day := v |}
  end.

(** The first alternative, in order, from which [k] succeeds. *)
Fixpoint first_success {A B : Type} (k : A -> option B) (alts : list A) : option B :=
  match alts with
  | [] => None
  | a :: alts' =>
      match k a with
      | Some b => Some b
      | None => first_success k alts'
      end
  end.

(** The ways [\s+] can match here, longest first. *)
Fixpoint space_runs (l : list ascii) : list (list ascii) :=
  match l with
  | c :: l' => if Chars.isspace c then space_runs l' ++ [l'] else []
  | [] => []
  end.

(** [format_regex.match(data)]: the found values and the unmatched
    rest of the data. *)
Fixpoint match_items (its : list item) (l : list ascii) (f : found)
  : option (found * list ascii) :=
  match its with
  | [] => Some (f, l)
  | Lit c :: its' =>
      match l with
      | c' :: l' =>
          if Ascii.eqb (Chars.lower c) (Chars.lower c') then match_items its' l' f else None
      | [] => None
      end
  | Spaces :: its' =>
      first_success (fun l' => match_items its' l' f) (space_runs l)
  | Dir d :: its' =>
      first_success (fun '(v, l') => match_items its' l' (record d v f)) (candidates d l)
  end.

Definition is_leap (y : N) : bool :=
  ((y mod 4 =? 0) && (negb (y mod 100 =? 0) || (y mod 400 =? 0))).

Definition days_in_month (y m : N) : N :=
  match m with
  | 2 => if is_leap y then 29 else 28
  | 4 | 6 | 9 | 11 => 30
  | _ => 31
  end.

(** The range checks of the [date] constructor. *)
Definition valid_date (f : found) : bool :=
  ((1 <=? year f) && (year f <=? 9999)
   && (1 <=? month f) && (month f <=? 12)
   && (1 <=? day f) && (day f <=? days_in_month (year f) (month f))).

(** [datetime.strptime(data, fmt)]; [None] is a [ValueError]. *)
Definition strptime (data fmt : string) : option found :=
  match pattern fmt with
  | None => None
  | Some its =>
      match match_items its (Str.chars data) {| year := 1900; month := 1; day := 1 |} with
      | Some (f, []) => if valid_date f then Some f else None
      | Some (_, _ :: _) => None
      | None => None
      end
  end.

Definition digit (n : N) : ascii := ascii_of_N (48 + n mod 10).

(** [dt.strftime("%Y-%m-%d")], the year zero-padded to four digits as
    the documentation of [%Y] has it. *)
Definition strftime (f : found) : string :=
  Str.of_chars
    [digit (year f / 1000); digit (year f / 100); digit (year f / 10); digit (year f);
     "-"%char; digit (month f / 10); digit (month f);
     "-"%char; digit (day f / 10); digit (day f)].

End Strptime.

(** ** Date normaliser (eval_runner.py, lines 119-142) *)

Definition formats : list string :=
  ["%Y-%m-%d"; "%d/%m/%Y"; "%m/%d/%Y"; "%Y/%m/%d"; "%d-%m-%Y"; "%d %b %Y"; "%d %B %Y"]%string.

(** The loop over [formats]: the first one that parses returns. *)
Fixpoint try_formats (data : string) (fmts : list string) : option Strptime.found :=
  match fmts with
  | [] => None
  | fmt :: fmts' =>
      match Strptime.strptime data fmt with
      | Some dt => Some dt
      | None => try_formats data fmts'
      end
  end.

Definition normalize_date (date_str : option string) : option string :=
  match date_str with
  | None => None
  | Some date_str =>
      if negb (Str.truthy date_str) then None
      else
        match try_formats (Str.strip date_str) formats with
        | Some dt => Some (Strptime.strftime dt)
        | None => Some date_str
        end
  end.

(** ** Amount normaliser (eval_runner.py, lines 145-161) *)

(** A Python float: a rational, or the [float('inf')] the matcher uses
    as its "no error computed" sentinel. *)
Inductive xfloat :=
| Fin (q : Q)
| PInf.

(** What the [amount] or [total] key of a record can hold besides
    [None]: a number ([int], [float] or [bool], as [float(amount)] reads
    it), a string, or a value of another type. *)
Inductive amount_value :=
| ANum (q : Q)
| AStr (s : string)
| AOther.

Module Float.

(** The digits of a decimal numeral, as an integer. *)
Definition digits_value (l : list ascii) : Z :=
  fold_left (fun acc c => (10 * acc + (Z.of_N (Chars.code c) - 48))%Z) l 0%Z.

(** The longest prefix of digits, and the rest. *)
Fixpoint span_digits (l : list ascii) : list ascii * list ascii :=
  match l with
  | c :: l' =>
      if Chars.isdigit c
      then let '(ds, rest) := span_digits l' in (c :: ds, rest)
      else ([], l)
  | [] => ([], [])
  end.

(** [10 ** n] *)
Definition pow10 (n : nat) : positive := Nat.iter n (Pos.mul 10) 1%positive.

Definition is_nil {A} (l : list A) : bool :=
  match l with [] => true | _ => false end.

(** [float(text)] for a text made of digits, [.] and [-] only:
    an optional sign, then digits with an optional point, at least one
    digit in all.  [None] is the [ValueError]. *)
Definition of_cleaned (l : list ascii) : option Q :=
  let '(negative, body) :=
    match l with
    | c :: l' => if Ascii.eqb c "-" then (true, l') else (false, l)
    | [] => (false, l)
    end in
  let '(int_part, rest) := span_digits body in
  let signed (q : Q) := if negative then - q else q in
  match rest with
  | [] =>
      if is_nil int_part then None
      else Some (signed (inject_Z (digits_value int_part)))
  | c :: frac_part =>
      if Ascii.eqb c "."
         && forallb Chars.isdigit frac_part
         && negb (is_nil int_part && is_nil frac_part)
      then Some (signed (digits_value (int_part ++ frac_part) # pow10 (length frac_part)))
      else None
  end.

End Float.

(** [re.sub(r'[^\d.\-]', '', amount)] *)
Definition clean_amount (l : list ascii) : list ascii :=
  filter (fun c => Is_true (Chars.isdigit c || Ascii.eqb c "." || Ascii.eqb c "-")) l.

Definition normalize_amount (amount : option amount_value) : option Q :=
  match amount with
  | None => None
  | Some (ANum q) => Some q
  | Some (AStr s) => Float.of_cleaned (clean_amount (Str.chars s))
  | Some AOther => None
  end.

(** ** Amount reconciliation (eval_runner.py, lines 195-229)

    The block of [match_transactions] that compares the two normalised
    amounts; it yields the pair [(amount_match, amount_error)]. *)

(** [a < b] on floats. *)
Definition Qltb (a b : Q) : bool := negb (Qle_bool b a).

(** The loop over [[2, 3, 4, 5, 10]] of the unit-price rule: does some
    multiplier bring the prediction within 5% of the ground truth? *)
Definition multipliers : list Q := [2; 3; 4; 5; 10].

Definition unit_price_hit (pred_abs gt_abs : Q) : bool :=
  existsb (fun mult => Qltb (Qabs (pred_abs * mult * 1000 - gt_abs) / gt_abs) (5 # 100))
          multipliers.

Definition reconcile (amount_tolerance_pct : Q) (pred_amt gt_amt : option Q)
  : bool * xfloat :=
  match pred_amt, gt_amt with
  | Some pred_amt, Some gt_amt =>
      let pred_abs := Qabs pred_amt in
      let gt_abs := Qabs gt_amt in
      let amount_error := Qabs (pred_abs - gt_abs) in
      if Qltb (Qabs (pred_abs - gt_abs)) (1 # 100) then
        (true, Fin amount_error)
      else if negb (Qeq_bool gt_abs 0)
              && Qltb (Qabs (pred_abs - gt_abs) / gt_abs) amount_tolerance_pct then
        (true, Fin amount_error)
      else if Qltb (Qabs (pred_abs - gt_abs * 100)) (1 # 100) then
        (true, Fin (Qabs (pred_abs / 100 - gt_abs)))
      else if Qltb (Qabs (pred_abs * 100 - gt_abs)) (1 # 100) then
        (true, Fin (Qabs (pred_abs - gt_abs / 100)))
      else if Qltb 1000 gt_abs
              && Qltb (Qabs (pred_abs * 1000 - gt_abs) / gt_abs) (1 # 100) then
        (true, Fin (Qabs (pred_abs - gt_abs / 1000)))
      else if Qltb 1000 pred_abs
              && Qltb (Qabs (pred_abs - gt_abs * 1000) / pred_abs) (1 # 100) then
        (true, Fin (Qabs (pred_abs / 1000 - gt_abs)))
      else if Qltb 100 gt_abs && Qltb pred_abs 1000 then
        if unit_price_hit pred_abs gt_abs then (true, Fin 0)
        else (false, Fin amount_error)
      else
        (false, Fin amount_error)
  | _, _ => (false, PInf)
  end.

(** ** Transaction records and match results (eval_runner.py, lines 28-36) *)

(** One key of a [dict]: [None] when the key is absent, [Some v] when it
    is bound to [v], where [v] itself may be Python's [None]. *)
Definition slot (A : Type) : Type := option (option A).

(** [d.get(key, default)] *)
Definition dict_get {A : Type} (s : slot A) (default : option A) : option A :=
  match s with
  | Some v => v
  | None => default
  end.

Record transaction := {
  date : slot string;
  description : slot string;
  merchant : slot string;
  amount : slot amount_value;
  total : slot amount_value;
}.

Record TransactionMatch := {
  predicted : transaction;
  ground_truth : option transaction;
  date_match : bool;
  description_match : Q;
  amount_match : bool;
  amount_error : xfloat;
}.

(** ** Transaction matcher (eval_runner.py, lines 164-262) *)

Definition field_date (t : transaction) : option string :=
  normalize_date (dict_get (date t) (Some ""%string)).

Definition field_desc (t : transaction) : option string :=
  dict_get (description t) (dict_get (merchant t) (Some ""%string)).

Definition field_amt (t : transaction) : option Q :=
  normalize_amount (dict_get (amount t) (dict_get (total t) None)).

(** [pred_date == gt_date if pred_date and gt_date else False] *)
Definition dates_agree (pred_date gt_date : option string) : bool :=
  match pred_date, gt_date with
  | Some p, Some g => Str.truthy p && Str.truthy g && String.eqb p g
  | _, _ => false
  end.

Definition indicator (b : bool) : Q := if b then 1 else 0.

(** The body of the inner loop up to the threshold test: the composite
    score of a candidate and the match result it would give. *)
Definition candidate (amount_tolerance_pct : Q) (pred gt : transaction)
  : Q * TransactionMatch :=
  let date_match := dates_agree (field_date pred) (field_date gt) in
  let desc_score := fuzzy_match_score (field_desc pred) (field_desc gt) in
  let '(amount_match, amount_error) :=
    reconcile amount_tolerance_pct (field_amt pred) (field_amt gt) in
  let score :=
    indicator date_match * (3 # 10) + desc_score * (4 # 10)
    + indicator amount_match * (3 # 10) in
  (score,
   {| predicted := pred;
      ground_truth := Some gt;
      date_match := date_match;
      description_match := desc_score;
      amount_match := amount_match;
      amount_error := match amount_error with PInf => Fin 0 | e => e end |}).

(** The inner loop over [enumerate(ground_truth)], from index [i] on:
    [best] is the pair [(best_match, best_idx)] and [best_score] the
    score to beat. *)
Fixpoint scan (amount_tolerance_pct : Q) (used_gt : gset nat) (pred : transaction)
  (i : nat) (gts : list transaction)
  (best : option (TransactionMatch * nat)) (best_score : Q)
  : option (TransactionMatch * nat) :=
  match gts with
  | [] => best
  | gt :: gts' =>
      if bool_decide (i ∈ used_gt) then
        scan amount_tolerance_pct used_gt pred (S i) gts' best best_score
      else
        let '(score, m) := candidate amount_tolerance_pct pred gt in
        if Qltb best_score score && Qltb (5 # 10) score then
          scan amount_tolerance_pct used_gt pred (S i) gts' (Some (m, i)) score
        else
          scan amount_tolerance_pct used_gt pred (S i) gts' best best_score
  end.

Definition unmatched (pred : transaction) : TransactionMatch :=
  {| predicted := pred;
     ground_truth := None;
     date_match := false;
     description_match := 0;
     amount_match := false;
     amount_error := Fin 0 |}.

(** The outer loop.  Each result is paired with the index it added to
    [used_gt], if any. *)
Fixpoint match_loop (amount_tolerance_pct : Q) (ground_truth : list transaction)
  (used_gt : gset nat) (predicted : list transaction)
  : list (TransactionMatch * option nat) :=
  match predicted with
  | [] => []
  | pred :: predicted' =>
      match scan amount_tolerance_pct used_gt pred 0 ground_truth None 0 with
      | Some (best_match, best_idx) =>
          (best_match, Some best_idx)
            :: match_loop amount_tolerance_pct ground_truth (used_gt ∪ {[best_idx]}) predicted'
      | None =>
          (unmatched pred, None)
            :: match_loop amount_tolerance_pct ground_truth used_gt predicted'
      end
  end.

(** [date_tolerance_days] is accepted and never read. *)
Definition match_transactions (predicted ground_truth : list transaction)
  (date_tolerance_days : Z) (amount_tolerance_pct : Q) : list TransactionMatch :=
  map fst (match_loop amount_tolerance_pct ground_truth ∅ predicted).

(** The defaults of the two keyword parameters. *)
Definition default_date_tolerance_days : Z := 1.
Definition default_amount_tolerance_pct : Q := 1 # 100.

(** ** Metrics aggregator (eval_runner.py, lines 265-303) *)

Record metrics := {
  matched_count : nat;
  precision : Q;
  recall : Q;
  f1 : Q;
  date_accuracy : Q;
  description_accuracy : Q;
  amount_accuracy : Q;
  amount_mae : xfloat;
}.

Definition Q_of_nat (n : nat) : Q := inject_Z (Z.of_nat n).

Definition xadd (a b : xfloat) : xfloat :=
  match a, b with
  | Fin x, Fin y => Fin (x + y)
  | _, _ => PInf
  end.

Definition xdiv (a : xfloat) (d : Q) : xfloat :=
  match a with
  | Fin x => Fin (x / d)
  | PInf => PInf
  end.

(** [sum(...)] over floats and over possibly infinite floats. *)
Definition fsum (l : list Q) : Q := fold_left Qplus l 0.
Definition xsum (l : list xfloat) : xfloat := fold_left xadd l (Fin 0).

(** [sum(1 for m in matched if flag(m))] *)
Definition count_true (flag : TransactionMatch -> bool) (l : list TransactionMatch) : nat :=
  length (filter (fun m => Is_true (flag m)) l).

Definition is_matched (m : TransactionMatch) : bool :=
  match ground_truth m with Some _ => true | None => false end.

(** True division: dividing by zero raises [ZeroDivisionError], which is
    the [None] of the results below. *)
Definition true_div (a b : Q) : option Q :=
  if Qeq_bool b 0 then None else Some (a / b).

Definition xtrue_div (a : xfloat) (b : Q) : option xfloat :=
  if Qeq_bool b 0 then None else Some (xdiv a b).

Definition compute_metrics (matches : list TransactionMatch) (ground_truth_count : Z)
  : option metrics :=
  match matches with
  | [] =>
      Some {| matched_count := 0; precision := 0; recall := 0; f1 := 0;
              date_accuracy := 0; description_accuracy := 0; amount_accuracy := 0;
              amount_mae := Fin 0 |}
  | _ :: _ =>
      let matched := filter (fun m => Is_true (is_matched m)) matches in
      let matched_count := length matched in
      let nonzero := negb (matched_count =? 0)%nat in
      precision ← true_div (Q_of_nat matched_count) (Q_of_nat (length matches));
      recall ←
        (if (ground_truth_count =? 0)%Z then Some 0
         else true_div (Q_of_nat matched_count) (inject_Z ground_truth_count));
      f1 ←
        (if Qltb 0 (precision + recall)
         then true_div (2 * precision * recall) (precision + recall)
         else Some 0);
      date_acc ←
        (if nonzero
         then true_div (Q_of_nat (count_true date_match matched)) (Q_of_nat matched_count)
         else Some 0);
      desc_acc ←
        (if nonzero
         then true_div (fsum (map description_match matched)) (Q_of_nat matched_count)
         else Some 0);
      amt_acc ←
        (if nonzero
         then true_div (Q_of_nat (count_true amount_match matched)) (Q_of_nat matched_count)
         else Some 0);
      amt_mae ←
        (if nonzero
         then xtrue_div (xsum (map amount_error matched)) (Q_of_nat matched_count)
         else Some (Fin 0));
      Some {| matched_count := matched_count; precision := precision; recall := recall;
              f1 := f1; date_accuracy := date_acc; description_accuracy := desc_acc;
              amount_accuracy := amt_acc; amount_mae := amt_mae |}
  end.

(** ** Run history (scripts/update_benchmark_snapshot.py, lines 42-83) *)

Module History.
Section History.

(** JSON values, with the empty dict [{}] and the string ["unknown"]. *)
Variable json : Type.
Variable empty : json.
Variable unknown : json.

Record entry := {
  run_id : string;
  timestamp : string;
  model : option json;
  git_sha : string;
  results : option json;
}.

(** [benchmark-history.json]: its [runs] key, [None] when absent. *)
Record history := { runs : option (list entry) }.

(** The benchmark results handed in: the keys [model] and [results]. *)
Record new_results := {
  nr_model : slot json;
  nr_results : slot json;
}.

(** [load_json(HISTORY_PATH)]; the file is [None] when it does not exist. *)
Definition load_json (file : option history) : history :=
  match file with
  | Some h => h
  | None => {| runs := None |}
  end.

(** [l[-50:]] *)
Definition last50 (l : list entry) : list entry := drop (length l - 50) l.

(** [now] is the clock's ISO timestamp and [sha] what [get_git_sha]
    returns.  The result is the history written back to the file, which
    is also the value returned. *)
Definition append_history (now sha : string) (file : option history)
  (new : new_results) (run_id : string) : history :=
  let history := load_json file in
  let runs0 := match runs history with Some l => l | None => [] end in
  let entry :=
    {| run_id := run_id;
       timestamp := now;
       model := dict_get (nr_model new) (Some unknown);
       git_sha := sha;
       results := dict_get (nr_results new) (Some empty) |} in
  let runs1 := runs0 ++ [entry] in
  let runs2 := if (50 <? length runs1)%nat then last50 runs1 else runs1 in
  {| runs := Some runs2 |}.

End History.
End History.

(** ** Trend arrows (scripts/update_benchmark_snapshot.py, lines 86-90) *)

(** The three strings [trend_arrow] returns: a right, an up and a down
    arrow. *)
Inductive arrow := ArrowRight | ArrowUp | ArrowDown.

Definition trend_arrow (current previous : Q) : arrow :=
  let diff := current - previous in
  if Qltb (Qabs diff) (5 # 1000) then ArrowRight
  else if Qltb 0 diff then ArrowUp else ArrowDown.

(** ** Threshold validation (scripts/validate_benchmarks.py) *)

Module Validate.

(** A JSON object whose values are numbers or [null]. *)
Abbreviation numbers := (gmap string (option Q)).

(** [benchmark-results.json] as far as [main] reads it: the key
    [thresholds], and the key [results] with its key [overall]; [None]
    is an absent key. *)
Record benchmark := {
  thresholds : option numbers;
  results : option (option numbers);
}.

(** [d.get(key)] on such an object. *)
Definition lookup_number (d : numbers) (key : string) : option Q :=
  match d !! key with
  | Some v => v
  | None => None
  end.

(** One line of the report, without its formatting: the metric's
    display name and the numbers shown. *)
Inductive line :=
| Skip (name : string)
| Pass (name : string) (actual threshold : Q)
| FailNoResult (name : string)
| FailBelow (name : string) (actual threshold : Q).

Definition checks : list (string * string) :=
  [("f1_score", "F1 Score"); ("amount_accuracy", "Amount Accuracy");
   ("date_accuracy", "Date Accuracy"); ("description_accuracy", "Description Accuracy")]%string.

(** The state of the loop: the lines printed at once, [failures] and
    [passes]. *)
Record tally := {
  printed : list line;
  failures : list line;
  passes : list line;
}.

(** One iteration of the loop over [checks]. *)
Definition check_metric (thresholds results : numbers) (t : tally)
  (c : string * string) : tally :=
  let '(metric_key, metric_name) := c in
  match lookup_number thresholds metric_key with
  | None =>
      {| printed := printed t ++ [Skip metric_name];
         failures := failures t; passes := passes t |}
  | Some threshold =>
      match lookup_number results metric_key with
      | None =>
          {| printed := printed t;
             failures := failures t ++ [FailNoResult metric_name]; passes := passes t |}
      | Some actual =>
          if Qle_bool threshold actual then
            {| printed := printed t; failures := failures t;
               passes := passes t ++ [Pass metric_name actual threshold] |}
          else
            {| printed := printed t;
               failures := failures t ++ [FailBelow metric_name actual threshold];
               passes := passes t |}
      end
  end.

Definition run_checks (thresholds results : numbers) : tally :=
  fold_left (check_metric thresholds results) checks
            {| printed := []; failures := []; passes := [] |}.

(** [main]: the exit code of the process.  The file is [None] when
    [benchmark-results.json] does not exist. *)
Definition main (file : option benchmark) : Z :=
  match file with
  | None => 1
  | Some data =>
      let thresholds := default ∅ (thresholds data) in
      let results := default ∅ (default (Some ∅) (results data)) in
      if (size results =? 0)%nat then 1
      else
        match failures (run_checks thresholds results) with
        | [] => 0
        | _ :: _ => 1
        end
  end%Z.

End Validate.

(** ** The evaluation of one file (eval_runner.py, lines 28-76 and 306-391) *)

Module Runner.

Record PageMetrics := {
  pm_page : Z;
  pm_predicted_count : Z;
  pm_ground_truth_count : Z;
  pm_matched_count : Z;
  pm_date_accuracy : Q;
  pm_description_accuracy : Q;
  pm_amount_accuracy : Q;
  pm_amount_mae : Q;
  pm_processing_time_s : Q;
}.

(** A path: its text, and its [suffix]. *)
Record path := { path_str : string; suffix : string }.

Section Runner.

(** The records of page-level errors an extractor reports, and the
    exceptions the extractors raise (a file that cannot be opened, an
    HTTP error, a failure of the model). *)
Variable page_error : Type.
Variable exn : Type.

(** What [__init__] and [evaluate_file] can raise: their own
    [ImportError], an [AttributeError] for a runner without the
    [modal_client] attribute, a division by zero, or whatever an
    extractor raised. *)
Inductive error :=
| ImportError (message : string)
| AttributeError
| ZeroDivisionError
| Raised (e : exn).

(** What an extraction yields, as [evaluate_file] reads it: the keys
    [transactions], [errors] (may be absent or null) and [page_count]. *)
Record extraction := {
  transactions : list transaction;
  errors : slot (list page_error);
  page_count : Z;
}.

(** The [ExtractionResult] of the Modal client, as far as it is read. *)
Record modal_result := {
  m_transactions : list transaction;
  m_errors : option (list page_error);
  m_page_count : Z;
  m_model : string;
}.

(** The method [extract] of a constructed Modal client. *)
Definition modal_client : Type := path -> string -> exn + modal_result.

(** The collaborators, each of which may raise: the class [ModalClient]
    (called with an endpoint or without), and
    [ParallelExtractor(...).extract_pdf_parallel] and
    [LocalExtractor(...).extract_file].  [None] is a class whose import
    failed. *)
Variable ModalClient : option (option string -> exn + modal_client).
Variable ParallelExtractor :
  option (string -> string -> Z -> path -> string -> exn + extraction).
Variable LocalExtractor : option (string -> string -> path -> string -> exn + extraction).

(** The attributes of a runner; [client] is [self.modal_client], which
    [__init__] sets only with [use_modal]. *)
Record EvalRunner := {
  model_size : string;
  device : string;
  workers : Z;
  use_modal : bool;
  modal_endpoint : option string;
  client : option modal_client;
}.

Record EvalResult := {
  file : string;
  model : string;
  r_page_count : Z;
  total_predicted : nat;
  total_ground_truth : nat;
  total_matched : nat;
  r_precision : Q;
  r_recall : Q;
  r_f1 : Q;
  r_date_accuracy : Q;
  r_description_accuracy : Q;
  r_amount_accuracy : Q;
  r_amount_mae : xfloat;
  total_time_s : Q;
  time_per_page_s : Q;
  page_metrics : list PageMetrics;
  r_errors : list page_error;
}.

(** [__init__] *)
Definition init (model_size device : string) (workers : Z) (use_modal : bool)
  (modal_endpoint : option string) : error + EvalRunner :=
  let runner c :=
    {| model_size := model_size; device := device; workers := workers;
       use_modal := use_modal; modal_endpoint := modal_endpoint; client := c |} in
  if use_modal then
    match ModalClient with
    | None => inl (ImportError "modal_client not available")
    | Some cls =>
        let endpoint :=
          match modal_endpoint with
          | Some e => if Str.truthy e then Some e else None
          | None => None
          end in
        match cls endpoint with
        | inl e => inl (Raised e)
        | inr c => inr (runner (Some c))
        end
    end
  else inr (runner None).

(** The first part of [evaluate_file]: the extraction and the name of
    the model. *)
Definition run_extraction (r : EvalRunner) (file_path : path) (doc_type : string)
  : error + (extraction * string) :=
  if use_modal r then
    match client r with
    | None => inl AttributeError
    | Some extract =>
        match extract file_path doc_type with
        | inl e => inl (Raised e)
        | inr modal_result =>
            inr ({| transactions := m_transactions modal_result;
                    errors := Some (m_errors modal_result);
                    page_count := m_page_count modal_result |},
                 m_model modal_result)
        end
    end
  else if String.eqb (Str.lower (suffix file_path)) ".pdf" && (1 <? workers r)%Z then
    match ParallelExtractor with
    | None => inl (ImportError "local_extractor not available")
    | Some extractor =>
        match extractor (model_size r) (device r) (workers r) file_path doc_type with
        | inl e => inl (Raised e)
        | inr result => inr (result, ("Qwen2-VL-" ++ model_size r)%string)
        end
    end
  else
    match LocalExtractor with
    | None => inl (ImportError "local_extractor not available")
    | Some extractor =>
        match extractor (model_size r) (device r) file_path doc_type with
        | inl e => inl (Raised e)
        | inr result => inr (result, ("Qwen2-VL-" ++ model_size r)%string)
        end
    end.

(** [evaluate_file]; [total_time] is the time the extraction took. *)
Definition evaluate_file (r : EvalRunner) (file_path : path)
  (ground_truth : list transaction) (doc_type : string) (total_time : Q)
  : error + EvalResult :=
  match run_extraction r file_path doc_type with
  | inl e => inl e
  | inr (result, model_name) =>
      let matches :=
        match_transactions (transactions result) ground_truth
          default_date_tolerance_days default_amount_tolerance_pct in
      match compute_metrics matches (Z.of_nat (length ground_truth)) with
      | None => inl ZeroDivisionError
      | Some metrics =>
          inr {| file := path_str file_path;
                 model := model_name;
                 r_page_count := page_count result;
                 total_predicted := length (transactions result);
                 total_ground_truth := length ground_truth;
                 total_matched := matched_count metrics;
                 r_precision := precision metrics;
                 r_recall := recall metrics;
                 r_f1 := f1 metrics;
                 r_date_accuracy := date_accuracy metrics;
                 r_description_accuracy := description_accuracy metrics;
                 r_amount_accuracy := amount_accuracy metrics;
                 r_amount_mae := amount_mae metrics;
                 total_time_s := total_time;
                 time_per_page_s :=
                   if (page_count result =? 0)%Z then 0
                   else total_time / inject_Z (page_count result);
                 page_metrics := [];
                 r_errors :=
                   match dict_get (errors result) None with
                   | Some (_ :: _ as l) => l
                   | _ => []
                   end |}
      end
  end.

End Runner.
End Runner.

(** ** The amount arithmetic on binary64 floats
    (eval_runner.py, lines 195-246 and 292)

    The same lines as [reconcile], the score of [candidate] and the
    [amount_mae] of [compute_metrics], on IEEE 754 binary64 numbers as
    Python has them, for what exact rationals cannot show: overflow and
    NaN.  A decimal constant stands for the nearest binary64 number, as
    in Python. *)

Module F64.

#[local] Set Warnings "-inexact-float".
Local Open Scope float_scope.

(** [a != b]: true when either is NaN. *)
Definition ne (a b : float) : bool := negb (PrimFloat.eqb a b).

Definition multipliers : list float := [2; 3; 4; 5; 10].

Definition unit_price_hit (pred_abs gt_abs : float) : bool :=
  existsb (fun mult => PrimFloat.ltb (abs (pred_abs * mult * 1000 - gt_abs) / gt_abs) 0.05)
          multipliers.

Definition reconcile (amount_tolerance_pct : float) (pred_amt gt_amt : option float)
  : bool * float :=
  match pred_amt, gt_amt with
  | Some pred_amt, Some gt_amt =>
      let pred_abs := abs pred_amt in
      let gt_abs := abs gt_amt in
      let amount_error := abs (pred_abs - gt_abs) in
      if PrimFloat.ltb (abs (pred_abs - gt_abs)) 0.01 then
        (true, amount_error)
      else if ne gt_abs 0
              && PrimFloat.ltb (abs (pred_abs - gt_abs) / gt_abs) amount_tolerance_pct then
        (true, amount_error)
      else if PrimFloat.ltb (abs (pred_abs - gt_abs * 100)) 0.01 then
        (true, abs (pred_abs / 100 - gt_abs))
      else if PrimFloat.ltb (abs (pred_abs * 100 - gt_abs)) 0.01 then
        (true, abs (pred_abs - gt_abs / 100))
      else if PrimFloat.ltb 1000 gt_abs
              && PrimFloat.ltb (abs (pred_abs * 1000 - gt_abs) / gt_abs) 0.01 then
        (true, abs (pred_abs - gt_abs / 1000))
      else if PrimFloat.ltb 1000 pred_abs
              && PrimFloat.ltb (abs (pred_abs - gt_abs * 1000) / pred_abs) 0.01 then
        (true, abs (pred_abs / 1000 - gt_abs))
      else if PrimFloat.ltb 100 gt_abs && PrimFloat.ltb pred_abs 1000 then
        if unit_price_hit pred_abs gt_abs then (true, 0)
        else (false, amount_error)
      else
        (false, amount_error)
  | _, _ => (false, infinity)
  end.

(** The composite score, and the test [score > best_score and score > 0.5]. *)
Definition score (date_match : bool) (desc_score : float) (amount_match : bool) : float :=
  (if date_match then 1 else 0) * 0.3 + desc_score * 0.4
  + (if amount_match then 1 else 0) * 0.3.

Definition accepted (best_score score : float) : bool :=
  PrimFloat.ltb best_score score && PrimFloat.ltb 0.5 score.

(** [amount_error if amount_error != float('inf') else 0] *)
Definition emitted_error (amount_error : float) : float :=
  if ne amount_error infinity then amount_error else 0.

(** [sum(errors) / matched_count if matched_count else 0.0], where
    [errors] are the amount errors of the matched results, added from
    the left starting at 0.  (Python 3.12 and later carry a compensation
    term along the sum; a sum that overflows is infinite either way.) *)
Definition amount_mae (errors : list float) : float :=
  match errors with
  | [] => 0
  | _ :: _ =>
      fold_left PrimFloat.add errors 0
      / PrimFloat.of_uint63 (Uint63.of_Z (Z.of_nat (length errors)))
  end.

(** The default of [amount_tolerance_pct], and a large amount used as a
    sample input. *)
Definition default_amount_tolerance_pct : float := 0.01.
Definition sample_huge : float := 1e308.

End F64.

(** ** Notions used in the statements of Part II *)

(** The rules of the reconciliation cascade whose test reads the same
    with the two amounts exchanged: the absolute tolerance, the 100x
    scale either way and the 1000x scale either way. *)
Definition order_free_rule (pred_abs gt_abs : Q) : Prop :=
  Qabs (pred_abs - gt_abs) < 1 # 100
  \/ Qabs (pred_abs - gt_abs * 100) < 1 # 100
  \/ Qabs (pred_abs * 100 - gt_abs) < 1 # 100
  \/ (1000 < gt_abs /\ Qabs (pred_abs * 1000 - gt_abs) / gt_abs < 1 # 100)
  \/ (1000 < pred_abs /\ Qabs (pred_abs - gt_abs * 1000) / pred_abs < 1 # 100).

(** A history file holding the fifty runs ["0"] ... ["49"], and the
    appending of run ["50"] to it. *)
Definition run_named (i : nat) : History.entry unit :=
  {| History.run_id := pretty i; History.timestamp := "t"; History.model := None;
     History.git_sha := "abc1234"; History.results := None |}.

Definition fifty_runs : History.history unit :=
  {| History.runs := Some (map run_named (seq 0 50)) |}.


(** The reference definition of the fuzzy score, in the words of the
    specification.  [needle] occurs in [hay] when [hay] is [needle]
    with something before and something after. *)
Definition occurs_in (needle hay : string) : Prop :=
  exists pre post, Str.chars hay = pre ++ Str.chars needle ++ post.

(** Jaccard similarity of the token sets of two token lists: the number
    of distinct tokens in both over the number of distinct tokens in
    either, and 0 when either list has no token. *)
Definition jaccard (a b : list string) : Q :=
  match a, b with
  | [], _ | _, [] => 0
  | _ :: _, _ :: _ =>
      ratio (length (remove_dups (list_intersection a b))) (length (remove_dups (a ++ b)))
  end.

(** The three tiers, on normalised strings. *)
Inductive fuzzy_reference (p t : string) : Q -> Prop :=
| fuzzy_empty :
    p = ""%string \/ t = ""%string -> fuzzy_reference p t 0
| fuzzy_equal :
    p <> ""%string -> t <> ""%string -> p = t -> fuzzy_reference p t 1
| fuzzy_substring :
    p <> ""%string -> t <> ""%string -> p <> t ->
    occurs_in p t \/ occurs_in t p -> fuzzy_reference p t (9 # 10)
| fuzzy_tokens :
    p <> ""%string -> t <> ""%string -> p <> t ->
    ~ occurs_in p t -> ~ occurs_in t p ->
    fuzzy_reference p t (jaccard (Str.split p) (Str.split t)).

(** The shape [YYYY-MM-DD]: four digits, a dash, two digits, a dash,
    two digits. *)
Definition iso_shape (s : string) : Prop :=
  exists y1 y2 y3 y4 m1 m2 d1 d2 : ascii,
    Str.chars s = [y1; y2; y3; y4; "-"%char; m1; m2; "-"%char; d1; d2]
    /\ Forall (fun c => Chars.isdigit c = true) [y1; y2; y3; y4; m1; m2; d1; d2].

(** A match result [m] is assigned to position [oi] of the ground-truth
    list: to no position when it is unmatched, and otherwise to a
    position that holds the record [m] carries. *)
Definition assigned (gts : list transaction) (m : TransactionMatch) (oi : option nat)
  : Prop :=
  match oi with
  | None => ground_truth m = None
  | Some i => exists g, gts !! i = Some g /\ ground_truth m = Some g
  end.

(** What the matcher emits for a prediction: the unmatched result, or
    the result of a ground-truth record at an index not yet used whose
    composite score is above the threshold. *)
Definition emitted (tol : Q) (gts : list transaction) (used : gset nat)
  (r : TransactionMatch * option nat) : Prop :=
  match snd r with
  | None => fst r = unmatched (predicted (fst r))
  | Some i =>
      (i ∉ used)
      /\ exists g, gts !! i = Some g
                   /\ fst r = snd (candidate tol (predicted (fst r)) g)
                   /\ 5 # 10 < fst (candidate tol (predicted (fst r)) g)
  end.

(** Sample records. *)
Definition starbucks : transaction :=
  {| date := Some (Some "2024-01-15"%string);
     description := Some (Some "Starbucks"%string);
     merchant := None;
     amount := Some (Some (ANum 5.5));
     total := None |}.

Definition undated (text : string) : transaction :=
  {| date := Some (Some text);
     description := Some (Some "Starbucks"%string);
     merchant := None;
     amount := None;
     total := None |}.

(** A date written day first with slashes, [DD/MM/YYYY]. *)
Definition day_first_slashes (dt : Strptime.found) : string :=
  Str.of_chars
    [Strptime.digit (Strptime.day dt / 10); Strptime.digit (Strptime.day dt); "/"%char;
     Strptime.digit (Strptime.month dt / 10); Strptime.digit (Strptime.month dt); "/"%char;
     Strptime.digit (Strptime.year dt / 1000); Strptime.digit (Strptime.year dt / 100);
     Strptime.digit (Strptime.year dt / 10); Strptime.digit (Strptime.year dt)].

(** One run of the update script, as [append_history] sees it: the
    clock, the git revision, the new results and the run identifier; the
    entry it appends; and a sequence of runs, each reading the history
    file the previous one wrote. *)
Record script_run (json : Type) := {
  sr_now : string;
  sr_sha : string;
  sr_new : History.new_results json;
  sr_run_id : string;
}.

Arguments sr_now {json}.
Arguments sr_sha {json}.
Arguments sr_new {json}.
Arguments sr_run_id {json}.

Definition entry_of {json : Type} (empty unknown : json) (x : script_run json)
  : History.entry json :=
  {| History.run_id := sr_run_id x;
     History.timestamp := sr_now x;
     History.model := dict_get (History.nr_model json (sr_new x)) (Some unknown);
     History.git_sha := sr_sha x;
     History.results := dict_get (History.nr_results json (sr_new x)) (Some empty) |}.

Definition append_runs {json : Type} (empty unknown : json)
  (file : option (History.history json)) (xs : list (script_run json))
  : option (History.history json) :=
  fold_left
    (fun file x =>
       Some (History.append_history json empty unknown (sr_now x) (sr_sha x) file
               (sr_new x) (sr_run_id x)))
    xs file.

(** A dated purchase with a numeric amount. *)
Definition priced (a : Q) : transaction :=
  {| date := Some (Some "2024-01-15"%string);
     description := Some (Some "Starbucks"%string);
     merchant := None;
     amount := Some (Some (ANum a));
     total := None |}.

(* ===================================================================== *)
(** * Part II. Properties                                                *)
(* ===================================================================== *)

(** ** Comparisons and divisions on floats *)

Lemma Qltb_lt (a b : Q) : Qltb a b = true <-> a < b.
Proof.
  unfold Qltb. rewrite negb_true_iff. split.
  - intros H. apply Qnot_le_lt. intros Hle.
    apply Qle_bool_iff in Hle. congruence.
  - intros H. destruct (Qle_bool b a) eqn:E; [|reflexivity].
    apply Qle_bool_iff in E. exfalso. exact (Qlt_not_le _ _ H E).
Qed.

Lemma Qltb_ge (a b : Q) : Qltb a b = false <-> b <= a.
Proof.
  unfold Qltb. rewrite negb_false_iff. apply Qle_bool_iff.
Qed.

Lemma Q_of_nat_nonneg (n : nat) : 0 <= Q_of_nat n.
Proof. unfold Q_of_nat, Qle. simpl. lia. Qed.

Lemma Q_of_nat_le (n m : nat) : (n <= m)%nat -> Q_of_nat n <= Q_of_nat m.
Proof. intros H. unfold Q_of_nat, Qle. simpl. lia. Qed.

Lemma Q_of_nat_pos (n : nat) : (0 < n)%nat -> 0 < Q_of_nat n.
Proof. intros H. unfold Q_of_nat, Qlt. simpl. lia. Qed.

(** A quotient of a non-negative by a larger positive lies in [0,1]. *)
Lemma unit_quotient (a b : Q) : 0 <= a -> a <= b -> 0 < b -> 0 <= a / b /\ a / b <= 1.
Proof.
  intros Ha Hab Hb. split.
  - apply Qle_shift_div_l; [exact Hb | lra].
  - apply Qle_shift_div_r; [exact Hb | lra].
Qed.

Lemma true_div_some (a b : Q) : ~ b == 0 -> true_div a b = Some (a / b).
Proof.
  intros H. unfold true_div. destruct (Qeq_bool b 0) eqn:E; [|reflexivity].
  apply Qeq_bool_iff in E. contradiction.
Qed.

(** ** The metrics aggregator never divides by zero *)

Lemma Q_of_nat_nonzero (n : nat) : (n =? 0)%nat = false -> ~ Q_of_nat n == 0.
Proof.
  intros H Heq. apply Nat.eqb_neq in H.
  unfold Q_of_nat, Qeq in Heq. simpl in Heq. lia.
Qed.

Lemma inject_Z_nonzero (z : Z) : (z =? 0)%Z = false -> ~ inject_Z z == 0.
Proof.
  intros H Heq. apply Z.eqb_neq in H.
  unfold Qeq in Heq. simpl in Heq. lia.
Qed.

(** On a non-empty list every guarded division goes through, and the
    metrics are the quotients the source writes. *)
Lemma compute_metrics_cons (m0 : TransactionMatch) (ms : list TransactionMatch) (n : Z) :
  let matches := m0 :: ms in
  let matched := filter (fun m => Is_true (is_matched m)) matches in
  let k := length matched in
  let P := Q_of_nat k / Q_of_nat (length matches) in
  let R := if (n =? 0)%Z then 0 else Q_of_nat k / inject_Z n in
  compute_metrics matches n =
  Some {| matched_count := k;
          precision := P;
          recall := R;
          f1 := if Qltb 0 (P + R) then 2 * P * R / (P + R) else 0;
          date_accuracy :=
            if (k =? 0)%nat then 0 else Q_of_nat (count_true date_match matched) / Q_of_nat k;
          description_accuracy :=
            if (k =? 0)%nat then 0 else fsum (map description_match matched) / Q_of_nat k;
          amount_accuracy :=
            if (k =? 0)%nat then 0 else Q_of_nat (count_true amount_match matched) / Q_of_nat k;
          amount_mae :=
            if (k =? 0)%nat then Fin 0 else xdiv (xsum (map amount_error matched)) (Q_of_nat k) |}.
Proof.
  intros matches matched k P R.
  unfold compute_metrics. fold matches. unfold matches at 1. fold matched. fold k.
  rewrite (true_div_some (Q_of_nat k) (Q_of_nat (length matches)))
    by (apply Q_of_nat_nonzero; reflexivity).
  cbn [mbind option_bind]. fold P.
  assert (HR : (if (n =? 0)%Z then Some 0 else true_div (Q_of_nat k) (inject_Z n)) = Some R).
  { unfold R. destruct (n =? 0)%Z eqn:En; [reflexivity|].
    apply true_div_some, inject_Z_nonzero, En. }
  rewrite HR. cbn [mbind option_bind].
  assert (HF : (if Qltb 0 (P + R) then true_div (2 * P * R) (P + R) else Some 0)
               = Some (if Qltb 0 (P + R) then 2 * P * R / (P + R) else 0)).
  { destruct (Qltb 0 (P + R)) eqn:E; [|reflexivity].
    apply true_div_some. apply Qltb_lt in E. intros Heq. rewrite Heq in E.
    exact (Qlt_irrefl _ E). }
  rewrite HF. cbn [mbind option_bind].
  destruct (k =? 0)%nat eqn:Ek; cbn [negb mbind option_bind]; [reflexivity|].
  pose proof (Q_of_nat_nonzero k Ek) as Hk.
  rewrite !(true_div_some _ (Q_of_nat k)) by exact Hk.
  cbn [mbind option_bind]. unfold xtrue_div.
  destruct (Qeq_bool (Q_of_nat k) 0) eqn:E.
  - apply Qeq_bool_iff in E. contradiction.
  - reflexivity.
Qed.

(** [compute_metrics] returns for every input. *)
Lemma compute_metrics_total (ms : list TransactionMatch) (n : Z) :
  exists m, compute_metrics ms n = Some m.
Proof.
  destruct ms as [|m0 ms].
  - eexists. reflexivity.
  - eexists. apply compute_metrics_cons.
Qed.

(** C4. On an empty list of matches [compute_metrics] returns all-zero
    metrics whatever the ground-truth count; with a ground-truth count of
    0 it returns (no division by zero is raised) and the recall is 0.0;
    and the F1 it returns is 0 whenever precision + recall is 0. *)
Theorem compute_metrics_degenerate :
  (forall n : Z,
     compute_metrics [] n =
     Some {| matched_count := 0; precision := 0; recall := 0; f1 := 0;
             date_accuracy := 0; description_accuracy := 0; amount_accuracy := 0;
             amount_mae := Fin 0 |})
  /\ (forall ms : list TransactionMatch,
        exists m, compute_metrics ms 0 = Some m /\ recall m = 0)
  /\ (forall (ms : list TransactionMatch) (n : Z) (m : metrics),
        compute_metrics ms n = Some m ->
        precision m + recall m == 0 -> f1 m = 0).
Proof.
  split; [reflexivity|]. split.
  - intros [|m0 ms].
    + eexists. split; reflexivity.
    + eexists. split; [apply compute_metrics_cons|reflexivity].
  - intros [|m0 ms] n m Hm Hz.
    + injection Hm as <-. reflexivity.
    + rewrite compute_metrics_cons in Hm. injection Hm as <-.
      cbn [f1 precision recall] in *.
      destruct (Qltb 0 _) eqn:E; [|reflexivity].
      apply Qltb_lt in E. rewrite Hz in E. exfalso. exact (Qlt_irrefl _ E).
Qed.

Lemma compute_metrics_degenerate_witness :
  exists m, compute_metrics [unmatched starbucks] 0 = Some m /\ recall m = 0 /\ f1 m = 0.
Proof.
  destruct compute_metrics_degenerate as (_ & _ & H3).
  eexists. split; [apply compute_metrics_cons|]. split; [reflexivity|].
  eapply (H3 [unmatched starbucks] 0%Z); [apply compute_metrics_cons|].
  vm_compute. reflexivity.
Defined.

(** ** Run history *)

Section HistoryFacts.

Context {json : Type} (empty unknown : json).

Abbreviation entry := (History.entry json).

Lemma last50_length (l : list entry) : length (History.last50 json l) = min (length l) 50.
Proof. unfold History.last50. rewrite length_drop. lia. Qed.

Lemma last50_short (l : list entry) : (length l <= 50)%nat -> History.last50 json l = l.
Proof.
  intros H. unfold History.last50.
  replace (length l - 50)%nat with 0%nat by lia. reflexivity.
Qed.

(** C9. [append_history] puts the new entry at the end of the stored
    runs and keeps the last 50 of the result: the stored list never
    exceeds 50 entries, the new entry is its last one, a history of
    fewer than 50 runs only grows, and a history of exactly 50 runs
    loses its oldest run and nothing else. *)
Theorem append_history_cap (now sha : string) (file : option (History.history json))
  (new : History.new_results json) (run_id : string) :
  let prior := default [] (History.runs json (History.load_json json file)) in
  let e := {| History.run_id := run_id;
              History.timestamp := now;
              History.model := dict_get (History.nr_model json new) (Some unknown);
              History.git_sha := sha;
              History.results := dict_get (History.nr_results json new) (Some empty) |} in
  exists l,
    History.runs json (History.append_history json empty unknown now sha file new run_id)
    = Some l
    /\ l = drop (length (prior ++ [e]) - 50) (prior ++ [e])
    /\ (length l <= 50)%nat
    /\ last l = Some e
    /\ ((length prior < 50)%nat -> l = prior ++ [e])
    /\ (length prior = 50%nat -> l = drop 1 prior ++ [e]).
Proof.
  intros prior e.
  unfold History.append_history.
  change (match History.runs json (History.load_json json file) with
          | Some l => l | None => [] end) with prior.
  fold e. cbn [History.runs].
  set (l1 := prior ++ [e]).
  assert (Hl : (if (50 <? length l1)%nat then History.last50 json l1 else l1)
               = drop (length l1 - 50) l1).
  { destruct (50 <? length l1)%nat eqn:E; [reflexivity|].
    apply Nat.ltb_ge in E. symmetry. apply last50_short. exact E. }
  rewrite Hl. eexists. split; [reflexivity|]. split; [reflexivity|].
  assert (Hlen : length l1 = S (length prior)).
  { unfold l1. rewrite length_app. simpl. lia. }
  split; [rewrite length_drop; lia|].
  assert (Hdrop : drop (length l1 - 50) l1 = drop (length l1 - 50) prior ++ [e]).
  { unfold l1 at 2. rewrite drop_app_le by lia. reflexivity. }
  split; [rewrite Hdrop; apply last_snoc|].
  split; intros H; rewrite Hdrop.
  - replace (length l1 - 50)%nat with 0%nat by lia. reflexivity.
  - replace (length l1 - 50)%nat with 1%nat by lia. reflexivity.
Qed.

End HistoryFacts.

Lemma append_history_cap_witness :
  History.runs unit
    (History.append_history unit tt tt "t" "abc1234" (Some fifty_runs)
       {| History.nr_model := Some None; History.nr_results := Some None |} (pretty 50%nat))
  = Some (map run_named (seq 1 50)).
Proof.
  destruct (append_history_cap tt tt "t" "abc1234" (Some fifty_runs)
              {| History.nr_model := Some None; History.nr_results := Some None |}
              (pretty 50%nat)) as (l & Hl & _ & _ & _ & _ & H50).
  rewrite Hl. f_equal. rewrite H50 by reflexivity. reflexivity.
Defined.

(** ** The amount reconciliation cascade *)

(** Turns the boolean tests of a hypothesis or of the goal into
    propositions. *)
Ltac bool_to_prop :=
  repeat match goal with
    | H : (_ && _) = true |- _ => apply andb_true_iff in H; destruct H
    | H : (_ && _) = false |- _ => apply andb_false_iff in H
    | H : negb _ = true |- _ => apply negb_true_iff in H
    | H : negb _ = false |- _ => apply negb_false_iff in H
    | H : Qltb _ _ = true |- _ => apply Qltb_lt in H
    | H : Qltb _ _ = false |- _ => apply Qltb_ge in H
    | H : Qeq_bool _ _ = true |- _ => apply Qeq_bool_iff in H
    | H : Qeq_bool _ _ = false |- _ => apply Qeq_bool_neq in H
    end.

(** C6. When the absolute rule and the relative rule both fail and
    [|pred|] is within 0.01 of [100 * |truth|], the amounts match and the
    reported error is [| |pred| / 100 - |truth| |]. *)
Theorem reconcile_hundredfold (tol pred_amt gt_amt : Q) :
  let pred_abs := Qabs pred_amt in
  let gt_abs := Qabs gt_amt in
  ~ Qabs (pred_abs - gt_abs) < 1 # 100 ->
  ~ (~ gt_abs == 0 /\ Qabs (pred_abs - gt_abs) / gt_abs < tol) ->
  Qabs (pred_abs - gt_abs * 100) < 1 # 100 ->
  reconcile tol (Some pred_amt) (Some gt_amt)
  = (true, Fin (Qabs (pred_abs / 100 - gt_abs))).
Proof.
  intros pred_abs gt_abs H2 H3 H4.
  unfold reconcile. fold pred_abs gt_abs.
  destruct (Qltb (Qabs (pred_abs - gt_abs)) (1 # 100)) eqn:E2.
  { bool_to_prop. contradiction. }
  destruct (negb (Qeq_bool gt_abs 0) && Qltb (Qabs (pred_abs - gt_abs) / gt_abs) tol) eqn:E3.
  { bool_to_prop. exfalso. apply H3. split; assumption. }
  apply Qltb_lt in H4. rewrite H4. reflexivity.
Qed.

(** The scale-ambiguity scenario: 2850 predicted against 28.50. *)
Lemma reconcile_hundredfold_witness :
  exists e, reconcile default_amount_tolerance_pct (Some 2850) (Some 28.5) = (true, Fin e)
            /\ e == 0.
Proof.
  eexists. split.
  - apply (reconcile_hundredfold default_amount_tolerance_pct 2850 28.5).
    + intros H. vm_compute in H. discriminate H.
    + intros [_ H]. vm_compute in H. discriminate H.
    + reflexivity.
  - reflexivity.
Defined.

(** The flag of the cascade is the disjunction of its rules. *)
Lemma reconcile_flag (tol a b : Q) :
  let pred_abs := Qabs a in
  let gt_abs := Qabs b in
  fst (reconcile tol (Some a) (Some b)) =
  Qltb (Qabs (pred_abs - gt_abs)) (1 # 100)
  || negb (Qeq_bool gt_abs 0) && Qltb (Qabs (pred_abs - gt_abs) / gt_abs) tol
  || Qltb (Qabs (pred_abs - gt_abs * 100)) (1 # 100)
  || Qltb (Qabs (pred_abs * 100 - gt_abs)) (1 # 100)
  || Qltb 1000 gt_abs && Qltb (Qabs (pred_abs * 1000 - gt_abs) / gt_abs) (1 # 100)
  || Qltb 1000 pred_abs && Qltb (Qabs (pred_abs - gt_abs * 1000) / pred_abs) (1 # 100)
  || Qltb 100 gt_abs && Qltb pred_abs 1000 && unit_price_hit pred_abs gt_abs.
Proof.
  intros pred_abs gt_abs. unfold reconcile. fold pred_abs gt_abs.
  repeat match goal with
    | |- context [if ?c then _ else _] => destruct c; cbn [fst orb andb]; try reflexivity
    end.
  all: rewrite ?orb_true_r; reflexivity.
Qed.

Lemma order_free_rule_matches (tol a b : Q) :
  order_free_rule (Qabs a) (Qabs b) -> fst (reconcile tol (Some a) (Some b)) = true.
Proof.
  intros H. rewrite reconcile_flag.
  destruct H as [H|[H|[H|[[H1 H]|[H1 H]]]]];
    apply Qltb_lt in H; try apply Qltb_lt in H1; rewrite H, ?H1;
    cbn [andb orb]; rewrite ?orb_true_r; reflexivity.
Qed.

Lemma order_free_rule_swap (x y : Q) : order_free_rule x y -> order_free_rule y x.
Proof.
  unfold order_free_rule.
  intros [H|[H|[H|[[H1 H]|[H1 H]]]]]; rewrite Qabs_Qminus in H; tauto.
Qed.

(** C2, amended.  Whenever one of the order-free rules applies to the
    absolute values of two amounts, the match flag is the same in both
    directions: both reconciliations report a match. *)
Theorem reconcile_flag_symmetric_on_order_free_rules (tol a b : Q) :
  order_free_rule (Qabs a) (Qabs b) ->
  fst (reconcile tol (Some a) (Some b)) = true
  /\ fst (reconcile tol (Some b) (Some a)) = true.
Proof.
  intros H. split; apply order_free_rule_matches.
  - exact H.
  - apply order_free_rule_swap. exact H.
Qed.

Lemma reconcile_flag_symmetric_witness :
  fst (reconcile default_amount_tolerance_pct (Some 2850) (Some 28.5)) = true
  /\ fst (reconcile default_amount_tolerance_pct (Some 28.5) (Some 2850)) = true.
Proof.
  apply (reconcile_flag_symmetric_on_order_free_rules default_amount_tolerance_pct 2850 28.5).
  right. left. reflexivity.
Defined.

(** C2 as stated fails: 100 against 101 is within 1% of the ground
    truth 101, but 101 against 100 is not within 1% of the ground truth
    100, and no later rule applies. *)
Lemma reconcile_flag_not_symmetric :
  fst (reconcile default_amount_tolerance_pct (Some 100) (Some 101)) = true
  /\ fst (reconcile default_amount_tolerance_pct (Some 101) (Some 100)) = false.
Proof. split; reflexivity. Qed.

(** ** The fuzzy text matcher *)

Lemma truthy_false (s : string) : Str.truthy s = false <-> s = ""%string.
Proof. destruct s; simpl; split; congruence. Qed.

Lemma contains_at_prefix (needle hay : list ascii) :
  Str.contains_at needle hay = true <-> exists post, hay = needle ++ post.
Proof.
  revert hay. induction needle as [|a needle IH]; intros hay; simpl.
  - split; [eauto|reflexivity].
  - destruct hay as [|b hay].
    + split; [discriminate|]. intros [post H]. discriminate H.
    + destruct (Ascii.eqb a b) eqn:E.
      * apply Ascii.eqb_eq in E. subst b. rewrite IH. split.
        -- intros [post ->]. eauto.
        -- intros [post H]. injection H as ->. eauto.
      * apply Ascii.eqb_neq in E. split; [discriminate|].
        intros [post H]. injection H as -> _. contradiction.
Qed.

Lemma contains_chars_infix (needle hay : list ascii) :
  Str.contains_chars needle hay = true <-> exists pre post, hay = pre ++ needle ++ post.
Proof.
  induction hay as [|b hay IH]; simpl.
  - rewrite orb_false_r, contains_at_prefix. split.
    + intros [post H]. exists [], post. exact H.
    + intros (pre & post & H). destruct pre; [eauto|discriminate H].
  - rewrite orb_true_iff, contains_at_prefix, IH. split.
    + intros [[post H]|(pre & post & H)].
      * exists [], post. exact H.
      * exists (b :: pre), post. simpl. congruence.
    + intros (pre & post & H). destruct pre as [|c pre].
      * left. eauto.
      * right. injection H as -> ->. eauto.
Qed.

Lemma contains_occurs (needle hay : string) :
  Str.contains needle hay = true <-> occurs_in needle hay.
Proof. apply contains_chars_infix. Qed.

(** The size of the set of a list is the number of its distinct elements. *)
Lemma size_list_to_set_dups (l : list string) :
  size (list_to_set l : gset string) = length (remove_dups l).
Proof.
  rewrite <- (size_list_to_set (C := gset string) (remove_dups l))
    by apply NoDup_remove_dups.
  f_equal. apply set_eq. intros x.
  rewrite !elem_of_list_to_set, elem_of_remove_dups. reflexivity.
Qed.

Lemma list_to_set_intersection (a b : list string) :
  (list_to_set a : gset string) ∩ list_to_set b = list_to_set (list_intersection a b).
Proof.
  apply set_eq. intros x.
  rewrite elem_of_intersection, !elem_of_list_to_set, list_elem_of_intersection.
  reflexivity.
Qed.

Lemma ratio_unit (n m : nat) : (n <= m)%nat -> (0 < m)%nat -> 0 <= ratio n m /\ ratio n m <= 1.
Proof.
  intros Hnm Hm. apply unit_quotient.
  - apply Q_of_nat_nonneg.
  - apply Q_of_nat_le, Hnm.
  - apply Q_of_nat_pos, Hm.
Qed.

Lemma fuzzy_match_score_bounds (pred truth : option string) :
  0 <= fuzzy_match_score pred truth /\ fuzzy_match_score pred truth <= 1.
Proof.
  unfold fuzzy_match_score.
  set (A := list_to_set (Str.split (normalize_text pred)) : gset string).
  set (B := list_to_set (Str.split (normalize_text truth)) : gset string).
  destruct (negb _ || negb _); [split; discriminate|].
  destruct (String.eqb _ _); [split; discriminate|].
  destruct (Str.contains _ _ || Str.contains _ _); [split; discriminate|].
  destruct (bool_decide (A = ∅)) eqn:EA; [split; discriminate|].
  destruct (bool_decide (B = ∅)); [split; discriminate|].
  cbn [orb]. apply bool_decide_eq_false in EA.
  apply ratio_unit.
  - apply subseteq_size. intros x Hx.
    apply elem_of_intersection in Hx as [Hx _]. apply elem_of_union. left. exact Hx.
  - apply (Nat.lt_le_trans _ (size A)).
    + apply Nat.neq_0_lt_0. intros H0. apply size_empty_iff in H0.
      apply EA. apply leibniz_equiv. exact H0.
    + apply subseteq_size, union_subseteq_l.
Qed.

Lemma fuzzy_match_score_reference (pred truth : option string) :
  fuzzy_reference (normalize_text pred) (normalize_text truth)
                  (fuzzy_match_score pred truth).
Proof.
  unfold fuzzy_match_score.
  set (p := normalize_text pred). set (t := normalize_text truth).
  destruct (negb (Str.truthy p) || negb (Str.truthy t)) eqn:E0.
  { apply fuzzy_empty. apply orb_true_iff in E0 as [E|E]; apply negb_true_iff in E;
      apply truthy_false in E; auto. }
  apply orb_false_iff in E0 as [Ep Et].
  apply negb_false_iff in Ep, Et.
  assert (Hp : p <> ""%string) by (intros H; apply truthy_false in H; congruence).
  assert (Ht : t <> ""%string) by (intros H; apply truthy_false in H; congruence).
  destruct (String.eqb p t) eqn:E1.
  { apply String.eqb_eq in E1. apply fuzzy_equal; assumption. }
  apply String.eqb_neq in E1.
  destruct (Str.contains p t || Str.contains t p) eqn:E2.
  { apply fuzzy_substring; try assumption.
    apply orb_true_iff in E2 as [E|E]; apply contains_occurs in E; auto. }
  apply orb_false_iff in E2 as [E2 E3].
  assert (H2 : ~ occurs_in p t) by (intros H; apply contains_occurs in H; congruence).
  assert (H3 : ~ occurs_in t p) by (intros H; apply contains_occurs in H; congruence).
  replace (if bool_decide _ || bool_decide _ then _ else _)
    with (jaccard (Str.split p) (Str.split t)).
  { apply fuzzy_tokens; assumption. }
  unfold jaccard.
  destruct (Str.split p) as [|x xs] eqn:Sp.
  { rewrite bool_decide_eq_true_2 by reflexivity. reflexivity. }
  destruct (Str.split t) as [|y ys] eqn:St.
  { rewrite (bool_decide_eq_true_2 (list_to_set [] = ∅)) by reflexivity.
    rewrite orb_true_r. reflexivity. }
  rewrite !bool_decide_eq_false_2 by (simpl; set_solver).
  cbn [orb].
  rewrite list_to_set_intersection, <- list_to_set_app_L, !size_list_to_set_dups.
  reflexivity.
Qed.

(** C7. [fuzzy_match_score] is the three-tier reference score of the
    two normalised strings (0 when either is empty, 1 when they are
    equal, 0.9 when one occurs in the other, and otherwise the Jaccard
    similarity of their token sets), it lies in [0,1], and it takes the
    stated values on the four sample pairs. *)
Theorem fuzzy_match_score_three_tiers :
  (forall pred truth : option string,
     fuzzy_reference (normalize_text pred) (normalize_text truth)
                     (fuzzy_match_score pred truth)
     /\ 0 <= fuzzy_match_score pred truth <= 1)
  /\ fuzzy_match_score (Some "Starbucks"%string) (Some "starbucks"%string) == 1
  /\ fuzzy_match_score (Some "STARBUCKS #123"%string) (Some "Starbucks"%string) == 0.9
  /\ fuzzy_match_score (Some "a b c"%string) (Some "c b d"%string) == 0.5
  /\ fuzzy_match_score (Some ""%string) (Some "x"%string) == 0.
Proof.
  split.
  - intros pred truth. split.
    + apply fuzzy_match_score_reference.
    + apply fuzzy_match_score_bounds.
  - repeat split; vm_compute; reflexivity.
Qed.

(** ** The date normaliser *)

Lemma digit_isdigit (n : N) : Chars.isdigit (Strptime.digit n) = true.
Proof.
  unfold Chars.isdigit, Chars.between, Chars.code, Strptime.digit.
  pose proof (N.mod_upper_bound n 10 ltac:(discriminate)) as Hm.
  generalize dependent (n mod 10)%N. intros r Hr.
  rewrite N_ascii_embedding by lia.
  apply andb_true_iff. split; apply N.leb_le; lia.
Qed.

Lemma strftime_iso_shape (dt : Strptime.found) : iso_shape (Strptime.strftime dt).
Proof.
  unfold iso_shape, Strptime.strftime, Str.chars, Str.of_chars.
  do 8 eexists. rewrite list_ascii_of_string_of_list_ascii.
  split; [reflexivity|].
  repeat constructor; apply digit_isdigit.
Qed.

(** The loop returns the parse of the first format that parses. *)
Lemma try_formats_first (data : string) (before after : list string) (fmt : string)
  (dt : Strptime.found) :
  Forall (fun f => Strptime.strptime data f = None) before ->
  Strptime.strptime data fmt = Some dt ->
  try_formats data (before ++ fmt :: after) = Some dt.
Proof.
  intros Hb Hf. induction Hb as [|f before Hfail _ IH]; simpl.
  - rewrite Hf. reflexivity.
  - rewrite Hfail. exact IH.
Qed.

Lemma try_formats_none (data : string) (fmts : list string) :
  Forall (fun f => Strptime.strptime data f = None) fmts ->
  try_formats data fmts = None.
Proof.
  induction 1 as [|f fmts Hfail _ IH]; simpl; [reflexivity|].
  rewrite Hfail. exact IH.
Qed.

(** C8. [normalize_date] runs through the fixed list of seven formats in
    order and returns the parse of the first one that parses, written as
    [YYYY-MM-DD]; a non-empty string that no format parses is returned
    unchanged; [None] and the empty string give [None]; and it returns
    for every input (a [ValueError] of [strptime] never leaves it).
    ["15/01/2024"] is read day first, ["2024-01-15"] is a fixed point and
    ["not a date"] passes through. *)
Theorem normalize_date_first_format :
  formats = ["%Y-%m-%d"; "%d/%m/%Y"; "%m/%d/%Y"; "%Y/%m/%d"; "%d-%m-%Y";
             "%d %b %Y"; "%d %B %Y"]%string
  /\ normalize_date None = None
  /\ normalize_date (Some ""%string) = None
  /\ (forall (s : string) (before after : list string) (fmt : string) (dt : Strptime.found),
        s <> ""%string ->
        formats = before ++ fmt :: after ->
        Forall (fun f => Strptime.strptime (Str.strip s) f = None) before ->
        Strptime.strptime (Str.strip s) fmt = Some dt ->
        normalize_date (Some s) = Some (Strptime.strftime dt)
        /\ iso_shape (Strptime.strftime dt))
  /\ (forall s : string,
        s <> ""%string ->
        Forall (fun f => Strptime.strptime (Str.strip s) f = None) formats ->
        normalize_date (Some s) = Some s)
  /\ (forall d : option string,
        normalize_date d = None \/ exists s, normalize_date d = Some s)
  /\ normalize_date (Some "15/01/2024"%string) = Some "2024-01-15"%string
  /\ normalize_date (Some "2024-01-15"%string) = Some "2024-01-15"%string
  /\ normalize_date (Some "not a date"%string) = Some "not a date"%string.
Proof.
  split; [reflexivity|]. split; [reflexivity|]. split; [reflexivity|].
  split; [|split; [|split]].
  - intros s before after fmt dt Hs Hsplit Hb Hf. split; [|apply strftime_iso_shape].
    unfold normalize_date.
    destruct (Str.truthy s) eqn:E; [|apply truthy_false in E; contradiction].
    cbn [negb]. rewrite Hsplit, (try_formats_first _ _ _ _ _ Hb Hf). reflexivity.
  - intros s Hs Hall. unfold normalize_date.
    destruct (Str.truthy s) eqn:E; [|apply truthy_false in E; contradiction].
    cbn [negb]. rewrite (try_formats_none _ _ Hall). reflexivity.
  - intros d. destruct (normalize_date d); eauto.
  - repeat split; vm_compute; reflexivity.
Qed.

Lemma normalize_date_first_format_witness :
  normalize_date (Some " 5 March 2024 "%string) = Some "2024-03-05"%string.
Proof.
  destruct normalize_date_first_format as (_ & _ & _ & H & _).
  refine (proj1 (H " 5 March 2024 "%string
                   ["%Y-%m-%d"; "%d/%m/%Y"; "%m/%d/%Y"; "%Y/%m/%d"; "%d-%m-%Y"; "%d %b %Y"]%string
                   [] "%d %B %Y"%string
                   {| Strptime.year := 2024; Strptime.month := 3; Strptime.day := 5 |}
                   _ _ _ _)).
  - discriminate.
  - reflexivity.
  - repeat constructor.
  - vm_compute. reflexivity.
Defined.

(** ** The transaction matcher *)

Lemma candidate_predicted (tol : Q) (pred gt : transaction) :
  predicted (snd (candidate tol pred gt)) = pred.
Proof. unfold candidate. destruct (reconcile _ _ _). reflexivity. Qed.

Lemma candidate_ground_truth (tol : Q) (pred gt : transaction) :
  ground_truth (snd (candidate tol pred gt)) = Some gt.
Proof. unfold candidate. destruct (reconcile _ _ _). reflexivity. Qed.

(** The inner loop keeps the best so far or replaces it by a candidate
    at an unused index of the part it scans, scored above the threshold. *)
Lemma scan_spec (tol : Q) (used : gset nat) (pred : transaction) (gts : list transaction) :
  forall (i : nat) (best : option (TransactionMatch * nat)) (best_score : Q),
    scan tol used pred i gts best best_score = best
    \/ exists j g,
         scan tol used pred i gts best best_score = Some (snd (candidate tol pred g), (i + j)%nat)
         /\ gts !! j = Some g
         /\ ((i + j)%nat ∉ used)
         /\ 5 # 10 < fst (candidate tol pred g).
Proof.
  induction gts as [|gt gts IH]; intros i best best_score; cbn [scan].
  - left. reflexivity.
  - assert (Hshift : forall b s,
      scan tol used pred (S i) gts b s = b
      \/ exists j g,
           scan tol used pred (S i) gts b s = Some (snd (candidate tol pred g), (i + j)%nat)
           /\ (gt :: gts) !! j = Some g
           /\ ((i + j)%nat ∉ used)
           /\ 5 # 10 < fst (candidate tol pred g)).
    { intros b s. destruct (IH (S i) b s) as [H|(j & g & H & Hg & Hu & Hs)]; [left; exact H|].
      right. exists (S j), g. replace (i + S j)%nat with (S i + j)%nat by lia. auto. }
    destruct (bool_decide (i ∈ used)) eqn:Eu; [apply Hshift|].
    destruct (candidate tol pred gt) as [score m] eqn:Ec.
    destruct (Qltb best_score score && Qltb (5 # 10) score) eqn:Et; [|apply Hshift].
    right. destruct (Hshift (Some (m, i)) score) as [H|H]; [|exact H].
    exists 0%nat, gt. rewrite Ec, Nat.add_0_r. cbn [fst snd]. split; [exact H|].
    split; [reflexivity|]. split.
    + apply bool_decide_eq_false in Eu. exact Eu.
    + apply andb_true_iff in Et as [_ Et]. apply Qltb_lt in Et. exact Et.
Qed.

Lemma scan_from_start (tol : Q) (used : gset nat) (pred : transaction)
  (gts : list transaction) :
  scan tol used pred 0 gts None 0 = None
  \/ exists j g,
       scan tol used pred 0 gts None 0 = Some (snd (candidate tol pred g), j)
       /\ gts !! j = Some g
       /\ (j ∉ used)
       /\ 5 # 10 < fst (candidate tol pred g).
Proof. apply (scan_spec tol used pred gts 0 None 0). Qed.

(** The outer loop: one result per prediction, in order; every result is
    as [emitted] says; the indices it commits are new and pairwise
    distinct. *)
Lemma match_loop_spec (tol : Q) (gts : list transaction) (preds : list transaction) :
  forall used : gset nat,
    let r := match_loop tol gts used preds in
    map (fun x => predicted (fst x)) r = preds
    /\ Forall (emitted tol gts used) r
    /\ NoDup (omap snd r)
    /\ (forall j, j ∈ omap snd r -> j ∉ used).
Proof.
  induction preds as [|pred preds IH]; intros used; cbn [match_loop].
  - cbn. repeat split; [constructor|constructor|]. intros j Hj. inversion Hj.
  - destruct (scan_from_start tol used pred gts) as [H|(j & g & H & Hg & Hu & Hs)];
      rewrite H.
    + destruct (IH used) as (Hp & He & Hn & Hf). cbn zeta.
      cbn [map fst snd omap]. split; [f_equal; exact Hp|].
      split; [constructor; [reflexivity|exact He]|]. split; assumption.
    + destruct (IH (used ∪ {[j]})) as (Hp & He & Hn & Hf). cbn zeta.
      cbn [map fst snd]. split; [rewrite candidate_predicted; f_equal; exact Hp|].
      split; [constructor|split].
      * unfold emitted. cbn [fst snd]. rewrite candidate_predicted. split; [exact Hu|].
        exists g. auto.
      * eapply Forall_impl; [exact He|]. intros [m [i|]]; unfold emitted; cbn [fst snd].
        -- intros [Hi Hrest]. split; [|exact Hrest].
           intros Hc. apply Hi, elem_of_union. left. exact Hc.
        -- auto.
      * cbn [omap fst snd]. apply NoDup_cons. split; [|exact Hn].
        intros Hin. apply Hf in Hin. apply Hin, elem_of_union. right.
        apply elem_of_singleton. reflexivity.
      * cbn [omap fst snd]. intros i Hi. apply elem_of_cons in Hi as [->|Hi]; [exact Hu|].
        apply Hf in Hi. intros Hc. apply Hi, elem_of_union. left. exact Hc.
Qed.

Lemma emitted_assigned (tol : Q) (gts : list transaction) (used : gset nat)
  (r : TransactionMatch * option nat) :
  emitted tol gts used r -> assigned gts (fst r) (snd r).
Proof.
  destruct r as [m [i|]]; unfold emitted, assigned; cbn [fst snd].
  - intros (_ & g & Hg & Hm & _). exists g. split; [exact Hg|].
    rewrite Hm. apply candidate_ground_truth.
  - intros ->. reflexivity.
Qed.

Lemma omap_id_map_snd {A : Type} (r : list (A * option nat)) :
  omap id (map snd r) = omap snd r.
Proof.
  induction r as [|[a [i|]] r IH]; cbn; [reflexivity| |]; rewrite IH; reflexivity.
Qed.

(** Two identical predictions against a single ground-truth record that
    scores above the threshold: the first takes it, the second is left
    unmatched. *)
Lemma match_twice_same (tol : Q) (d : Z) (p g : transaction) :
  5 # 10 < fst (candidate tol p g) ->
  match_transactions [p; p] [g] d tol = [snd (candidate tol p g); unmatched p].
Proof.
  intros Hs. unfold match_transactions. cbn [match_loop scan].
  rewrite bool_decide_eq_false_2 by apply not_elem_of_empty.
  destruct (candidate tol p g) as [score m] eqn:Ec. cbn [fst snd] in *.
  assert (H0 : Qltb 0 score = true) by (apply Qltb_lt; lra).
  assert (H5 : Qltb (5 # 10) score = true) by (apply Qltb_lt; exact Hs).
  rewrite H0, H5. cbn [andb].
  rewrite bool_decide_eq_true_2
    by (apply elem_of_union; right; apply elem_of_singleton; reflexivity).
  reflexivity.
Qed.

(** C1. [match_transactions] returns one result per prediction, in the
    order of the predictions, each carrying its prediction; the results
    can be assigned to positions of the ground-truth list (an unmatched
    result to none, a matched result to a position holding the record it
    carries) so that no position is assigned twice; and of two identical
    predictions that both score above the threshold against the only
    ground-truth record, the first is matched to it and the second is
    unmatched. *)
Theorem match_transactions_one_result_per_prediction
  (preds gts : list transaction) (d : Z) (tol : Q) :
  let ms := match_transactions preds gts d tol in
  length ms = length preds
  /\ map predicted ms = preds
  /\ (exists idx : list (option nat),
        Forall2 (assigned gts) ms idx /\ NoDup (omap id idx))
  /\ (forall p g : transaction,
        5 # 10 < fst (candidate tol p g) ->
        match_transactions [p; p] [g] d tol = [snd (candidate tol p g); unmatched p]).
Proof.
  intros ms. unfold ms, match_transactions.
  destruct (match_loop_spec tol gts preds ∅) as (Hp & He & Hn & _).
  set (r := match_loop tol gts ∅ preds) in *.
  assert (Hmap : map predicted (map fst r) = preds).
  { rewrite map_map. exact Hp. }
  split.
  { pose proof (f_equal length Hp) as Hlen. rewrite length_map in Hlen.
    rewrite length_map. exact Hlen. }
  split; [exact Hmap|]. split.
  - exists (map snd r). split.
    + clear -He. induction He as [|x r Hx _ IH]; cbn [map]; constructor.
      * eapply emitted_assigned. exact Hx.
      * exact IH.
    + rewrite omap_id_map_snd. exact Hn.
  - intros p g. apply (match_twice_same tol d).
Qed.

Lemma match_transactions_one_result_per_prediction_witness :
  match_transactions [starbucks; starbucks] [starbucks]
    default_date_tolerance_days default_amount_tolerance_pct
  = [snd (candidate default_amount_tolerance_pct starbucks starbucks); unmatched starbucks].
Proof.
  apply (match_transactions_one_result_per_prediction [] []
           default_date_tolerance_days default_amount_tolerance_pct).
  vm_compute. reflexivity.
Defined.

(** Every result of the matcher is the unmatched result of its
    prediction or the candidate of a ground-truth record scored above
    the threshold. *)
Lemma match_transactions_emitted (preds gts : list transaction) (d : Z) (tol : Q)
  (m : TransactionMatch) :
  m ∈ match_transactions preds gts d tol ->
  m = unmatched (predicted m)
  \/ exists g, g ∈ gts
               /\ m = snd (candidate tol (predicted m) g)
               /\ 5 # 10 < fst (candidate tol (predicted m) g).
Proof.
  unfold match_transactions. intros Hm.
  apply list_elem_of_fmap in Hm as ([m' oi] & -> & Hin).
  destruct (match_loop_spec tol gts preds ∅) as (_ & He & _).
  rewrite Forall_forall in He. specialize (He _ Hin).
  unfold emitted in He. cbn [fst snd] in *. destruct oi as [i|].
  - right. destruct He as (_ & g & Hg & Hc & Hs). exists g.
    split; [eapply list_elem_of_lookup_2; exact Hg|]. split; assumption.
  - left. exact He.
Qed.

Lemma dates_agree_true (a b : option string) :
  dates_agree a b = true <-> exists s, s <> ""%string /\ a = Some s /\ b = Some s.
Proof.
  unfold dates_agree. split.
  - destruct a as [p|], b as [g|]; try discriminate.
    intros H. apply andb_true_iff in H as [H He]. apply andb_true_iff in H as [Hp _].
    apply String.eqb_eq in He. subst g. exists p. split; [|auto].
    intros ->. discriminate Hp.
  - intros (s & Hs & -> & ->). rewrite String.eqb_refl.
    destruct s; [contradiction|reflexivity].
Qed.

Lemma candidate_date_match (tol : Q) (pred gt : transaction) :
  date_match (snd (candidate tol pred gt)) = dates_agree (field_date pred) (field_date gt).
Proof. unfold candidate. destruct (reconcile _ _ _). reflexivity. Qed.

(** C3, amended.  A result of [match_transactions] has [date_match]
    true exactly when it is matched and the normalised dates of its two
    records are the same non-empty string, where [normalize_date] gives
    the canonical form of a date it can parse and leaves a non-empty
    string it cannot parse as it is; an unmatched result has
    [date_match] false, and so has a matched one when either normalised
    date is null. *)
Theorem date_match_iff_equal_normalised_dates
  (preds gts : list transaction) (d : Z) (tol : Q) (m : TransactionMatch) :
  m ∈ match_transactions preds gts d tol ->
  match ground_truth m with
  | None => date_match m = false
  | Some g =>
      g ∈ gts
      /\ (date_match m = true <->
          exists s, s <> ""%string
                    /\ normalize_date (dict_get (date (predicted m)) (Some ""%string)) = Some s
                    /\ normalize_date (dict_get (date g) (Some ""%string)) = Some s)
  end.
Proof.
  intros Hm. apply match_transactions_emitted in Hm as [Hm|(g & Hg & Hm & _)].
  - rewrite Hm. reflexivity.
  - assert (Hgt : ground_truth m = Some g)
      by (rewrite Hm; apply candidate_ground_truth).
    assert (Hdm : date_match m = dates_agree (field_date (predicted m)) (field_date g))
      by (rewrite Hm at 1; apply candidate_date_match).
    rewrite Hgt, Hdm. split; [exact Hg|]. apply dates_agree_true.
Qed.

Lemma date_match_iff_equal_normalised_dates_witness :
  let m := snd (candidate default_amount_tolerance_pct starbucks starbucks) in
  starbucks ∈ [starbucks]
  /\ (date_match m = true <->
      exists s, s <> ""%string
                /\ normalize_date (dict_get (date (predicted m)) (Some ""%string)) = Some s
                /\ normalize_date (dict_get (date starbucks) (Some ""%string)) = Some s).
Proof.
  intros m.
  apply (date_match_iff_equal_normalised_dates [starbucks] [starbucks]
           default_date_tolerance_days default_amount_tolerance_pct m).
  vm_compute. apply list_elem_of_here.
Defined.

(** C3 as stated fails: two records whose date is the unparsable string
    ["not a date"] are matched with [date_match] true, although no format
    parses that string. *)
Lemma date_match_on_unparsed_dates :
  exists m,
    match_transactions [undated "not a date"] [undated "not a date"]
      default_date_tolerance_days default_amount_tolerance_pct = [m]
    /\ ground_truth m = Some (undated "not a date")
    /\ date_match m = true
    /\ try_formats (Str.strip "not a date") formats = None
    /\ normalize_date (Some "not a date"%string) = Some "not a date"%string.
Proof. eexists. repeat split; vm_compute; reflexivity. Qed.

(** ** Amount errors and metrics over the matcher's output *)

(** The cascade reports a non-negative error, and the infinite one only
    when an amount is missing. *)
Lemma reconcile_error (tol : Q) (a b : option Q) :
  match snd (reconcile tol a b) with
  | Fin q => 0 <= q
  | PInf => a = None \/ b = None
  end.
Proof.
  unfold reconcile. destruct a as [a|], b as [b|]; cbn [snd]; auto.
  repeat match goal with
    | |- context [if ?c then _ else _] => destruct c
    end; cbn [snd]; try apply Qabs_nonneg; apply Qle_refl.
Qed.

Lemma candidate_amount_error (tol : Q) (pred gt : transaction) :
  amount_error (snd (candidate tol pred gt)) =
  match snd (reconcile tol (field_amt pred) (field_amt gt)) with
  | PInf => Fin 0
  | e => e
  end.
Proof. unfold candidate. destruct (reconcile _ _ _) as [b [q|]]; reflexivity. Qed.

Lemma candidate_amount_error_finite (tol : Q) (pred gt : transaction) :
  exists q, amount_error (snd (candidate tol pred gt)) = Fin q /\ 0 <= q.
Proof.
  rewrite candidate_amount_error.
  pose proof (reconcile_error tol (field_amt pred) (field_amt gt)) as H.
  destruct (snd (reconcile _ _ _)) as [q|].
  - exists q. auto.
  - exists 0. split; [reflexivity|apply Qle_refl].
Qed.

Lemma xsum_finite (l : list xfloat) :
  Forall (fun e => exists q, e = Fin q /\ 0 <= q) l ->
  forall acc, 0 <= acc -> exists q, fold_left xadd l (Fin acc) = Fin q /\ 0 <= q.
Proof.
  induction 1 as [|e l (q & -> & Hq) _ IH]; intros acc Hacc; cbn [fold_left xadd].
  - exists acc. auto.
  - apply IH. lra.
Qed.

(** C5, amended.  No result of [match_transactions] carries the
    infinity sentinel as its amount error: an unmatched result carries
    0, a matched result whose reconciliation left the error at the
    sentinel (an amount is missing) carries 0 instead, and any other
    matched result carries the error the cascade computed, which is an
    absolute value and so not negative.  Hence no sentinel enters the
    sum of [amount_mae]; and on binary64 floats too, whatever the
    cascade computed, the error a result carries is never equal to the
    sentinel.  (That the errors and their mean are finite numbers is not
    part of the statement: see the counterexample.) *)
Theorem matcher_amount_error_never_sentinel
  (preds gts : list transaction) (d : Z) (tol : Q) :
  let ms := match_transactions preds gts d tol in
  Forall (fun m => amount_error m <> PInf
                   /\ (forall q, amount_error m = Fin q -> 0 <= q)
                   /\ (ground_truth m = None -> amount_error m = Fin 0)) ms
  /\ (forall p g : transaction,
        snd (reconcile tol (field_amt p) (field_amt g)) = PInf ->
        amount_error (snd (candidate tol p g)) = Fin 0)
  /\ (forall (p g : transaction) (q : Q),
        snd (reconcile tol (field_amt p) (field_amt g)) = Fin q ->
        amount_error (snd (candidate tol p g)) = Fin q)
  /\ Forall (fun e => e <> PInf)
            (map amount_error (filter (fun m => Is_true (is_matched m)) ms))
  /\ (forall e : float, PrimFloat.eqb (F64.emitted_error e) infinity = false).
Proof.
  intros ms.
  assert (Hall : Forall (fun m => amount_error m <> PInf
                                  /\ (forall q, amount_error m = Fin q -> 0 <= q)
                                  /\ (ground_truth m = None -> amount_error m = Fin 0)) ms).
  { apply Forall_forall. intros m Hm.
    apply match_transactions_emitted in Hm as [Hm|(g & _ & Hm & _)].
    - rewrite Hm. cbn [amount_error unmatched]. split; [discriminate|].
      split; [|reflexivity]. intros q Hq. injection Hq as <-. apply Qle_refl.
    - destruct (candidate_amount_error_finite tol (predicted m) g) as (q & Hq & Hq0).
      rewrite <- Hm in Hq. rewrite Hq. split; [discriminate|]. split.
      + intros q' Hq'. injection Hq' as <-. exact Hq0.
      + intros Hnone. rewrite Hm, candidate_ground_truth in Hnone. discriminate Hnone. }
  split; [exact Hall|]. split; [|split; [|split]].
  - intros p g H. rewrite candidate_amount_error, H. reflexivity.
  - intros p g q H. rewrite candidate_amount_error, H. reflexivity.
  - apply Forall_forall. intros e He.
    apply list_elem_of_fmap in He as (m & -> & Hin).
    apply list_elem_of_filter in Hin as [_ Hin].
    rewrite Forall_forall in Hall. apply (Hall m Hin).
  - intros e. unfold F64.emitted_error, F64.ne.
    destruct (PrimFloat.eqb e infinity) eqn:He; cbn [negb].
    + reflexivity.
    + exact He.
Qed.

Lemma matcher_amount_error_never_sentinel_witness :
  amount_error (snd (candidate default_amount_tolerance_pct (undated "15/01/2024") starbucks))
  = Fin 0.
Proof.
  destruct (matcher_amount_error_never_sentinel [] [] default_date_tolerance_days
              default_amount_tolerance_pct) as (_ & Hsentinel & _).
  apply Hsentinel. reflexivity.
Defined.

(** C5 as stated fails on binary64 floats.  Two purchases predicted at
    1e308 against ground truths of 0 are matched on date and description
    (score 0.7); each error is the finite number 1e308, which the guard
    against the sentinel keeps, and their sum overflows: [amount_mae] is
    infinite.  And with two infinite amounts the error is [abs(inf - inf)],
    a NaN, which is not the sentinel either and is emitted as it is. *)
Lemma amount_mae_not_finite :
  (exists m1 m2 q,
     match_transactions [priced (10 ^ 308); priced (10 ^ 308)] [priced 0; priced 0]
       default_date_tolerance_days default_amount_tolerance_pct = [m1; m2]
     /\ is_matched m1 = true /\ is_matched m2 = true
     /\ amount_error m1 = Fin q /\ amount_error m2 = Fin q /\ q == 10 ^ 308)
  /\ F64.reconcile F64.default_amount_tolerance_pct (Some F64.sample_huge) (Some 0%float)
     = (false, F64.sample_huge)
  /\ F64.accepted 0 (F64.score true 1 false) = true
  /\ F64.emitted_error F64.sample_huge = F64.sample_huge
  /\ PrimFloat.is_infinity F64.sample_huge = false
  /\ F64.amount_mae [F64.emitted_error F64.sample_huge; F64.emitted_error F64.sample_huge]
     = infinity
  /\ fst (F64.reconcile F64.default_amount_tolerance_pct (Some infinity) (Some infinity))
     = false
  /\ PrimFloat.is_nan
       (F64.emitted_error
          (snd (F64.reconcile F64.default_amount_tolerance_pct (Some infinity)
                  (Some infinity))))
     = true.
Proof.
  split.
  - eexists _, _, _. repeat apply conj; vm_compute; reflexivity.
  - repeat apply conj; vm_compute; reflexivity.
Qed.

(** The matched results are as many as the committed indices. *)
Lemma matched_count_indices (tol : Q) (gts : list transaction) (used : gset nat)
  (r : list (TransactionMatch * option nat)) :
  Forall (emitted tol gts used) r ->
  length (filter (fun m => Is_true (is_matched m)) (map fst r)) = length (omap snd r).
Proof.
  induction 1 as [|[m [i|]] r Hx _ IH]; [reflexivity| |];
    unfold emitted in Hx; cbn [fst snd map omap] in *.
  - destruct Hx as (_ & g & _ & Hm & _).
    rewrite filter_cons_True.
    + cbn [length]. rewrite IH. reflexivity.
    + unfold is_matched. rewrite Hm, candidate_ground_truth. exact I.
  - rewrite filter_cons_False.
    + exact IH.
    + unfold is_matched. rewrite Hx. cbn. auto.
Qed.

(** Committed indices are positions of the ground-truth list, so a list
    of distinct ones is no longer than that list. *)
Lemma committed_indices_bound (tol : Q) (gts : list transaction) (used : gset nat)
  (r : list (TransactionMatch * option nat)) :
  Forall (emitted tol gts used) r ->
  NoDup (omap snd r) ->
  (length (omap snd r) <= length gts)%nat.
Proof.
  intros He Hn. rewrite <- (length_seq (length gts) 0%nat).
  apply submseteq_length, NoDup_submseteq; [exact Hn|].
  intros j Hj. apply list_elem_of_omap in Hj as ([m oi] & Hin & Hoi).
  cbn [snd] in Hoi. subst oi.
  rewrite Forall_forall in He. specialize (He _ Hin).
  unfold emitted in He. cbn [fst snd] in He. destruct He as (_ & g & Hg & _).
  apply lookup_lt_Some in Hg. apply elem_of_seq. lia.
Qed.

Lemma matched_count_bound (preds gts : list transaction) (d : Z) (tol : Q) :
  (length (filter (fun m => Is_true (is_matched m)) (match_transactions preds gts d tol))
   <= length gts)%nat.
Proof.
  unfold match_transactions.
  destruct (match_loop_spec tol gts preds ∅) as (_ & He & Hn & _).
  rewrite (matched_count_indices _ _ _ _ He).
  eapply committed_indices_bound; eassumption.
Qed.

Lemma candidate_description_match (tol : Q) (pred gt : transaction) :
  description_match (snd (candidate tol pred gt))
  = fuzzy_match_score (field_desc pred) (field_desc gt).
Proof. unfold candidate. destruct (reconcile _ _ _). reflexivity. Qed.

Lemma description_match_unit (preds gts : list transaction) (d : Z) (tol : Q) :
  Forall (fun m => 0 <= description_match m /\ description_match m <= 1)
         (match_transactions preds gts d tol).
Proof.
  apply Forall_forall. intros m Hm.
  apply match_transactions_emitted in Hm as [Hm|(g & _ & Hm & _)]; rewrite Hm.
  - cbn. split; discriminate.
  - rewrite candidate_description_match. apply fuzzy_match_score_bounds.
Qed.

Lemma Q_of_nat_S (n : nat) : Q_of_nat (S n) == Q_of_nat n + 1.
Proof.
  unfold Q_of_nat. rewrite Nat2Z.inj_succ, <- Z.add_1_r, inject_Z_plus. reflexivity.
Qed.

(** A sum of numbers of [0,1] lies between 0 and their number. *)
Lemma fsum_unit (l : list Q) :
  Forall (fun x => 0 <= x /\ x <= 1) l ->
  forall acc, acc <= fold_left Qplus l acc /\ fold_left Qplus l acc <= acc + Q_of_nat (length l).
Proof.
  induction 1 as [|x l [Hx0 Hx1] _ IH]; intros acc; cbn [fold_left length].
  - change (Q_of_nat 0) with 0. split; lra.
  - destruct (IH (acc + x)) as [Hlo Hhi]. rewrite Q_of_nat_S. split; lra.
Qed.

(** The harmonic mean of two numbers of [0,1] lies in [0,1]. *)
Lemma f1_unit (P R : Q) :
  0 <= P -> P <= 1 -> 0 <= R -> R <= 1 -> 0 < P + R ->
  0 <= 2 * P * R / (P + R) /\ 2 * P * R / (P + R) <= 1.
Proof.
  intros HP0 HP1 HR0 HR1 Hpos.
  apply unit_quotient; [| |exact Hpos]; nra.
Qed.

Lemma count_true_le (flag : TransactionMatch -> bool) (l : list TransactionMatch) :
  (count_true flag l <= length l)%nat.
Proof. unfold count_true. apply length_filter. Qed.

Lemma ratio_of_counts (n k : nat) :
  (n <= k)%nat -> (k =? 0)%nat = false ->
  0 <= Q_of_nat n / Q_of_nat k /\ Q_of_nat n / Q_of_nat k <= 1.
Proof.
  intros Hnk Hk. apply Nat.eqb_neq in Hk. apply unit_quotient.
  - apply Q_of_nat_nonneg.
  - apply Q_of_nat_le, Hnk.
  - apply Q_of_nat_pos. lia.
Qed.

(** C10. For the matches of [match_transactions] and the length of the
    ground-truth list as count, [compute_metrics] returns, the matched
    count exceeds neither the number of matches nor the number of
    ground-truth records, and precision, recall, F1 and the three
    accuracies all lie in [0,1]; every description score of the output
    lies in [0,1]. *)
Theorem metrics_in_unit_interval (preds gts : list transaction) (d : Z) (tol : Q) :
  let ms := match_transactions preds gts d tol in
  exists mt,
    compute_metrics ms (Z.of_nat (length gts)) = Some mt
    /\ (matched_count mt <= length ms)%nat
    /\ (matched_count mt <= length gts)%nat
    /\ (0 <= precision mt /\ precision mt <= 1)
    /\ (0 <= recall mt /\ recall mt <= 1)
    /\ (0 <= f1 mt /\ f1 mt <= 1)
    /\ (0 <= date_accuracy mt /\ date_accuracy mt <= 1)
    /\ (0 <= description_accuracy mt /\ description_accuracy mt <= 1)
    /\ (0 <= amount_accuracy mt /\ amount_accuracy mt <= 1)
    /\ Forall (fun m => 0 <= description_match m /\ description_match m <= 1) ms.
Proof.
  intros ms.
  pose proof (matched_count_bound preds gts d tol) as Hgt. fold ms in Hgt.
  pose proof (description_match_unit preds gts d tol) as Hdesc. fold ms in Hdesc.
  assert (Hzero : 0 <= 0 /\ 0 <= 1) by (split; discriminate).
  destruct ms as [|m0 ms'] eqn:Ems.
  { eexists. split; [reflexivity|].
    cbn [matched_count precision recall f1 date_accuracy description_accuracy
         amount_accuracy length].
    split; [lia|]. split; [lia|].
    repeat (split; [exact Hzero|]). exact Hdesc. }
  eexists. split; [apply compute_metrics_cons|].
  cbn [matched_count precision recall f1 date_accuracy description_accuracy amount_accuracy].
  set (matches := m0 :: ms') in *.
  set (matched := filter (fun m => Is_true (is_matched m)) matches) in *.
  set (k := length matched) in *.
  assert (Hk : (k <= length matches)%nat) by apply length_filter.
  assert (HP : 0 <= Q_of_nat k / Q_of_nat (length matches)
               /\ Q_of_nat k / Q_of_nat (length matches) <= 1).
  { apply ratio_of_counts; [exact Hk|reflexivity]. }
  assert (HR : 0 <= (if (Z.of_nat (length gts) =? 0)%Z then 0
                     else Q_of_nat k / inject_Z (Z.of_nat (length gts)))
               /\ (if (Z.of_nat (length gts) =? 0)%Z then 0
                   else Q_of_nat k / inject_Z (Z.of_nat (length gts))) <= 1).
  { destruct (Z.of_nat (length gts) =? 0)%Z eqn:En; [exact Hzero|].
    apply (ratio_of_counts k (length gts)); [exact Hgt|].
    apply Nat.eqb_neq. apply Z.eqb_neq in En. lia. }
  split; [exact Hk|]. split; [exact Hgt|]. split; [exact HP|]. split; [exact HR|].
  split.
  { destruct (Qltb 0 _) eqn:E; [|exact Hzero].
    apply Qltb_lt in E. destruct HP, HR. apply f1_unit; assumption. }
  split.
  { destruct (k =? 0)%nat eqn:Ek; [exact Hzero|].
    apply ratio_of_counts; [apply count_true_le|exact Ek]. }
  split.
  { destruct (k =? 0)%nat eqn:Ek; [exact Hzero|].
    assert (Hm : Forall (fun x => 0 <= x /\ x <= 1) (map description_match matched)).
    { apply Forall_forall. intros x Hx.
      apply list_elem_of_fmap in Hx as (m & -> & Hin).
      apply list_elem_of_filter in Hin as [_ Hin].
      rewrite Forall_forall in Hdesc. apply Hdesc, Hin. }
    destruct (fsum_unit _ Hm 0) as [Hlo Hhi]. rewrite length_map in Hhi. fold k in Hhi.
    apply Nat.eqb_neq in Ek. unfold fsum. apply unit_quotient.
    - exact Hlo.
    - lra.
    - apply Q_of_nat_pos. lia. }
  split; [|exact Hdesc].
  destruct (k =? 0)%nat eqn:Ek; [exact Hzero|].
  apply ratio_of_counts; [apply count_true_le|exact Ek].
Qed.

(* ===================================================================== *)
(** * Part III. Further properties of the code                           *)
(* ===================================================================== *)

(** ** More on the amount reconciliation *)

Lemma Qabs_opp_eq (a : Q) : Qabs (- a) = Qabs a.
Proof. destruct a as [n d]. unfold Qabs, Qopp. cbn. rewrite Z.abs_opp. reflexivity. Qed.


(** X2. Only the absolute values of the amounts count: changing the
    sign of either amount changes neither the flag nor the error. *)
Theorem reconcile_ignores_sign (tol a b : Q) :
  reconcile tol (Some (- a)) (Some b) = reconcile tol (Some a) (Some b)
  /\ reconcile tol (Some a) (Some (- b)) = reconcile tol (Some a) (Some b).
Proof. unfold reconcile. rewrite !Qabs_opp_eq. split; reflexivity. Qed.

(** ** More on the fuzzy text matcher *)

(** X3. The fuzzy score does not depend on the order of its arguments. *)
Theorem fuzzy_match_score_symmetric (pred truth : option string) :
  fuzzy_match_score pred truth = fuzzy_match_score truth pred.
Proof.
  unfold fuzzy_match_score.
  set (p := normalize_text pred). set (t := normalize_text truth).
  set (A := list_to_set (Str.split p) : gset string).
  set (B := list_to_set (Str.split t) : gset string).
  rewrite (orb_comm (negb (Str.truthy t))), (String.eqb_sym t p),
    (orb_comm (Str.contains t p)), (orb_comm (bool_decide (B = ∅))),
    (comm_L (∩) B A), (comm_L (∪) B A).
  reflexivity.
Qed.

(** X4. A text scored against itself gives 1, unless it normalises to
    the empty string (it is null, empty, or made of blanks and
    punctuation only), in which case the score is 0. *)
Theorem fuzzy_match_score_self (text : option string) :
  fuzzy_match_score text text = if Str.truthy (normalize_text text) then 1 else 0.
Proof.
  unfold fuzzy_match_score.
  destruct (Str.truthy (normalize_text text)); cbn [negb orb]; [|reflexivity].
  rewrite String.eqb_refl. reflexivity.
Qed.

(** ** More on the transaction matcher *)

Lemma candidate_score (tol : Q) (pred gt : transaction) :
  let m := snd (candidate tol pred gt) in
  fst (candidate tol pred gt)
  = indicator (date_match m) * (3 # 10) + description_match m * (4 # 10)
    + indicator (amount_match m) * (3 # 10).
Proof. unfold candidate. destruct (reconcile _ _ _). reflexivity. Qed.

(** X5. The description alone never decides a match: every matched
    result of [match_transactions] agrees on the date or on the amount. *)
Theorem matched_needs_date_or_amount (preds gts : list transaction) (d : Z) (tol : Q) :
  Forall (fun m => is_matched m = true -> date_match m = true \/ amount_match m = true)
         (match_transactions preds gts d tol).
Proof.
  apply Forall_forall. intros m Hm Hmatched.
  pose proof (description_match_unit preds gts d tol) as Hdesc.
  rewrite Forall_forall in Hdesc. destruct (Hdesc m Hm) as [_ Hle].
  apply match_transactions_emitted in Hm as [Hm|(g & _ & Hm & Hs)].
  - rewrite Hm in Hmatched. discriminate Hmatched.
  - rewrite candidate_score in Hs. rewrite <- Hm in Hs.
    destruct (date_match m); [auto|]. destruct (amount_match m); [auto|].
    exfalso. unfold indicator in Hs. lra.
Qed.

(** The inner loop finds nothing when there is nothing to scan. *)
Lemma match_loop_no_ground_truth (tol : Q) (preds : list transaction) (used : gset nat) :
  match_loop tol [] used preds = map (fun p => (unmatched p, None)) preds.
Proof.
  induction preds as [|p preds IH]; cbn [match_loop scan map]; [reflexivity|].
  rewrite IH. reflexivity.
Qed.

(** X6. Without ground truth every prediction is unmatched, and the
    metrics of such a run are a matched count, precision, recall and F1
    of 0 (no division by zero occurs). *)
Theorem match_transactions_no_ground_truth (preds : list transaction) (d : Z) (tol : Q) :
  match_transactions preds [] d tol = map unmatched preds
  /\ exists mt,
       compute_metrics (match_transactions preds [] d tol) (Z.of_nat (length (@nil transaction)))
       = Some mt
       /\ matched_count mt = 0%nat
       /\ precision mt == 0 /\ recall mt = 0 /\ f1 mt = 0.
Proof.
  assert (H : match_transactions preds [] d tol = map unmatched preds).
  { unfold match_transactions. rewrite match_loop_no_ground_truth, map_map. reflexivity. }
  split; [exact H|]. rewrite H.
  assert (Hnone : forall l : list transaction,
            filter (fun m => Is_true (is_matched m)) (map unmatched l) = []).
  { induction l as [|p l IH]; [reflexivity|]. cbn [map].
    rewrite filter_cons_False; [exact IH|]. cbn. auto. }
  destruct preds as [|p preds].
  - eexists. split; [reflexivity|]. repeat split; reflexivity.
  - cbn [map]. rewrite compute_metrics_cons.
    change (unmatched p :: map unmatched preds) with (map unmatched (p :: preds)).
    rewrite Hnone. eexists. split; [reflexivity|].
    cbn [matched_count precision recall f1 length Z.of_nat Z.eqb].
    split; [reflexivity|]. split; [reflexivity|]. split; [reflexivity|].
    destruct (Qltb 0 _) eqn:E; [|reflexivity].
    apply Qltb_lt in E. exfalso. revert E. apply Qle_not_lt.
    assert (Hz : Q_of_nat 0 / Q_of_nat (length (map unmatched (p :: preds))) + 0 == 0).
    { change (Q_of_nat 0) with 0. unfold Qdiv. ring. }
    rewrite Hz. apply Qle_refl.
Qed.

(** The outer loop over a concatenation: the second part starts from
    the indices the first part has committed. *)
Lemma match_loop_app (tol : Q) (gts : list transaction) (p1 p2 : list transaction) :
  forall used : gset nat,
    match_loop tol gts used (p1 ++ p2)
    = match_loop tol gts used p1
      ++ match_loop tol gts (used ∪ list_to_set (omap snd (match_loop tol gts used p1))) p2.
Proof.
  induction p1 as [|p p1 IH]; intros used; cbn [app match_loop].
  - change (omap snd []) with (@nil nat).
    rewrite list_to_set_nil, (right_id_L ∅ (∪)). reflexivity.
  - destruct (scan tol used p 0 gts None 0) as [[m j]|].
    + change (omap snd ((m, Some j) :: ?r)) with (j :: omap snd r).
      cbn [app]. rewrite IH, list_to_set_cons. f_equal. f_equal. f_equal.
      rewrite (assoc_L (∪)). reflexivity.
    + change (omap snd ((?x, None) :: ?r)) with (omap snd r).
      cbn [app]. rewrite IH. reflexivity.
Qed.

(** X7. Matching is decided prediction by prediction: the results of
    the first predictions are the same whatever predictions follow. *)
Theorem match_transactions_prefix (p1 p2 gts : list transaction) (d : Z) (tol : Q) :
  take (length p1) (match_transactions (p1 ++ p2) gts d tol)
  = match_transactions p1 gts d tol.
Proof.
  unfold match_transactions. rewrite match_loop_app, map_app.
  assert (Hlen : length p1 = length (map fst (match_loop tol gts ∅ p1))).
  { destruct (match_loop_spec tol gts p1 ∅) as (Hp & _).
    rewrite length_map. rewrite <- Hp at 1. rewrite length_map. reflexivity. }
  rewrite Hlen. apply take_app_length.
Qed.

(** The inner loop from index [i] on: [top] is the score to beat when
    it ends.  Every unused record it scanned scores at most [top] or at
    most the threshold, and the result is either the best so far or an
    unused record scoring [top], above the threshold and above the old
    score to beat, that every earlier unused record scores strictly less
    than. *)
Lemma scan_best_from (tol : Q) (used : gset nat) (pred : transaction)
  (gts : list transaction) :
  forall (i : nat) (best : option (TransactionMatch * nat)) (best_score : Q),
  exists top : Q,
    best_score <= top
    /\ (forall k g, gts !! k = Some g -> (i + k)%nat ∉ used ->
          fst (candidate tol pred g) <= top \/ fst (candidate tol pred g) <= 5 # 10)
    /\ (scan tol used pred i gts best best_score = best /\ top = best_score
        \/ exists k g,
             gts !! k = Some g
             /\ ((i + k)%nat ∉ used)
             /\ scan tol used pred i gts best best_score
                = Some (snd (candidate tol pred g), (i + k)%nat)
             /\ top = fst (candidate tol pred g)
             /\ 5 # 10 < top
             /\ best_score < top
             /\ (forall k' g', (k' < k)%nat -> gts !! k' = Some g' -> (i + k')%nat ∉ used ->
                   fst (candidate tol pred g') < top)).
Proof.
  induction gts as [|gt gts IH]; intros i best best_score; cbn [scan].
  - exists best_score. split; [apply Qle_refl|]. split; [|left; auto].
    intros k g Hk. discriminate Hk.
  - destruct (bool_decide (i ∈ used)) eqn:Eu.
    + apply bool_decide_eq_true in Eu.
      destruct (IH (S i) best best_score) as (top & Hle & Hall & Hres).
      exists top. split; [exact Hle|]. split.
      * intros [|k] g Hk Hu.
        -- exfalso. apply Hu. rewrite Nat.add_0_r. exact Eu.
        -- apply (Hall k g Hk). replace (S i + k)%nat with (i + S k)%nat by lia. exact Hu.
      * destruct Hres as [Hres|(k & g & Hk & Hu & Hs & Ht & H5 & Hb & Hearly)];
          [left; exact Hres|].
        right. exists (S k), g. replace (i + S k)%nat with (S i + k)%nat by lia.
        repeat (split; [assumption|]).
        intros [|k'] g' Hlt Hk' Hu'.
        -- exfalso. apply Hu'. rewrite Nat.add_0_r. exact Eu.
        -- apply (Hearly k' g'); [lia|exact Hk'|].
           replace (S i + k')%nat with (i + S k')%nat by lia. exact Hu'.
    + apply bool_decide_eq_false in Eu.
      destruct (candidate tol pred gt) as [score m] eqn:Ec.
      assert (Hscore : fst (candidate tol pred gt) = score) by (rewrite Ec; reflexivity).
      assert (Hm : snd (candidate tol pred gt) = m) by (rewrite Ec; reflexivity).
      destruct (Qltb best_score score && Qltb (5 # 10) score) eqn:Et.
      * apply andb_true_iff in Et as [Eb E5]. apply Qltb_lt in Eb, E5.
        destruct (IH (S i) (Some (m, i)) score) as (top & Hle & Hall & Hres).
        exists top. split; [lra|]. split.
        -- intros [|k] g Hk Hu.
           ++ injection Hk as <-. rewrite Hscore. left. exact Hle.
           ++ apply (Hall k g Hk). replace (S i + k)%nat with (i + S k)%nat by lia. exact Hu.
        -- right.
           destruct Hres as [[Hres Ht]|(k & g & Hk & Hu & Hs & Ht & H5 & Hb & Hearly)].
           ++ exists 0%nat, gt. rewrite Nat.add_0_r, Hscore, Hm.
              split; [reflexivity|]. split; [exact Eu|]. split; [exact Hres|].
              split; [exact Ht|]. split; [lra|]. split; [lra|].
              intros k' g' Hlt. lia.
           ++ exists (S k), g. replace (i + S k)%nat with (S i + k)%nat by lia.
              split; [exact Hk|]. split; [exact Hu|]. split; [exact Hs|].
              split; [exact Ht|]. split; [exact H5|]. split; [lra|].
              intros [|k'] g' Hlt Hk' Hu'.
              ** injection Hk' as <-. rewrite Hscore. exact Hb.
              ** apply (Hearly k' g'); [lia|exact Hk'|].
                 replace (S i + k')%nat with (i + S k')%nat by lia. exact Hu'.
      * assert (Hlow : score <= best_score \/ score <= 5 # 10).
        { apply andb_false_iff in Et as [Et|Et]; apply Qltb_ge in Et; auto. }
        destruct (IH (S i) best best_score) as (top & Hle & Hall & Hres).
        exists top. split; [exact Hle|]. split.
        -- intros [|k] g Hk Hu.
           ++ injection Hk as <-. rewrite Hscore. destruct Hlow; [left; lra|right; assumption].
           ++ apply (Hall k g Hk). replace (S i + k)%nat with (i + S k)%nat by lia. exact Hu.
        -- destruct Hres as [Hres|(k & g & Hk & Hu & Hs & Ht & H5 & Hb & Hearly)];
             [left; exact Hres|].
           right. exists (S k), g. replace (i + S k)%nat with (S i + k)%nat by lia.
           repeat (split; [assumption|]).
           intros [|k'] g' Hlt Hk' Hu'.
           ++ injection Hk' as <-. rewrite Hscore. destruct Hlow; lra.
           ++ apply (Hearly k' g'); [lia|exact Hk'|].
              replace (S i + k')%nat with (i + S k')%nat by lia. exact Hu'.
Qed.

(** X8. For one prediction the inner loop commits the best unused
    ground-truth record: its score is above the threshold 0.5, no unused
    record scores more, and every unused record before it scores strictly
    less (ties go to the earliest).  It commits nothing exactly when no
    unused record scores above the threshold. *)
Theorem scan_picks_best (tol : Q) (used : gset nat) (pred : transaction)
  (gts : list transaction) :
  match scan tol used pred 0 gts None 0 with
  | Some (m, j) =>
      exists g,
        gts !! j = Some g /\ (j ∉ used) /\ m = snd (candidate tol pred g)
        /\ 5 # 10 < fst (candidate tol pred g)
        /\ (forall i gi, gts !! i = Some gi -> i ∉ used ->
              fst (candidate tol pred gi) <= fst (candidate tol pred g))
        /\ (forall i gi, (i < j)%nat -> gts !! i = Some gi -> i ∉ used ->
              fst (candidate tol pred gi) < fst (candidate tol pred g))
  | None =>
      forall i gi, gts !! i = Some gi -> i ∉ used -> fst (candidate tol pred gi) <= 5 # 10
  end.
Proof.
  destruct (scan_best_from tol used pred gts 0 None 0) as (top & _ & Hall & Hres).
  destruct Hres as [[Hres Ht]|(k & g & Hk & Hu & Hs & Ht & H5 & _ & Hearly)].
  - rewrite Hres. intros i gi Hi Hu. destruct (Hall i gi Hi Hu) as [H|H]; [|exact H].
    rewrite Ht in H. lra.
  - rewrite Hs. cbn [Nat.add] in *. exists g. subst top.
    split; [exact Hk|]. split; [exact Hu|]. split; [reflexivity|]. split; [exact H5|].
    split.
    + intros i gi Hi Hui. destruct (Hall i gi Hi Hui) as [H|H]; lra.
    + intros i gi Hlt Hi Hui. apply (Hearly i gi Hlt Hi Hui).
Qed.

(** ** More on the text normaliser *)

Lemma chars_of_chars (l : list ascii) : Str.chars (Str.of_chars l) = l.
Proof. apply list_ascii_of_string_of_list_ascii. Qed.

Lemma chars_app (s1 s2 : string) :
  Str.chars (s1 ++ s2) = Str.chars s1 ++ Str.chars s2.
Proof.
  induction s1 as [|c s1 IH]; [reflexivity|].
  change (Str.chars (String c (s1 ++ s2)) = c :: (Str.chars s1 ++ Str.chars s2)).
  cbn [Str.chars list_ascii_of_string]. f_equal. exact IH.
Qed.

Lemma lower_idempotent (c : ascii) : Chars.lower (Chars.lower c) = Chars.lower c.
Proof. destruct c as [[] [] [] [] [] [] [] []]; reflexivity. Qed.

Lemma Forall_lstrip (P : ascii -> Prop) (l : list ascii) :
  Forall P l -> Forall P (Str.lstrip l).
Proof.
  induction 1 as [|c l Hc Hl IH]; cbn [Str.lstrip]; [constructor|].
  destruct (Chars.isspace c); [exact IH|constructor; assumption].
Qed.

Lemma Forall_collapse (P : ascii -> Prop) (l : list ascii) :
  Forall P l ->
  forall in_run,
    Forall (fun c => P c /\ (Chars.isspace c = true -> c = " "%char) \/ c = " "%char)
           (collapse_from in_run l).
Proof.
  induction 1 as [|c l Hc Hl IH]; intros in_run; cbn [collapse_from]; [constructor|].
  destruct (Chars.isspace c) eqn:E.
  - destruct in_run; cbn [app]; [apply IH|]. constructor; [right; reflexivity|apply IH].
  - constructor; [|apply IH]. left. split; [exact Hc|]. intros H. congruence.
Qed.

(** X9. The normalised text is made of lower-case word characters and
    plain spaces only: no punctuation, no upper-case letter, and no
    whitespace character other than the space survives. *)
Theorem normalize_text_alphabet (text : option string) :
  Forall (fun c => (Chars.isword c = true \/ c = " "%char) /\ Chars.lower c = c)
         (Str.chars (normalize_text text)).
Proof.
  unfold normalize_text. destruct text as [text|]; [|constructor].
  destruct (Str.truthy text); cbn [negb]; [|constructor].
  rewrite !chars_of_chars. unfold strip_punctuation, collapse_whitespace.
  assert (H0 : Forall (fun c => Chars.lower c = c) (Str.chars (Str.strip (Str.lower text)))).
  { unfold Str.strip, Str.lower. rewrite !chars_of_chars.
    apply Forall_rev, Forall_lstrip, Forall_rev, Forall_lstrip.
    apply Forall_forall. intros c Hc. apply list_elem_of_fmap in Hc as (c' & -> & _).
    apply lower_idempotent. }
  pose proof (Forall_collapse _ _ H0 false) as H1.
  apply Forall_forall. intros c Hc.
  apply list_elem_of_filter in Hc as [Hkeep Hc].
  rewrite Forall_forall in H1. destruct (H1 c Hc) as [[Hlow Hsp] | ->].
  - split; [|exact Hlow]. apply Is_true_true in Hkeep.
    apply orb_true_iff in Hkeep as [Hw|Hs]; [left; exact Hw|right; apply Hsp, Hs].
  - split; [right; reflexivity|reflexivity].
Qed.

(** ** More on the amount normaliser *)

(** X10. In a string amount every character other than a digit, the
    point and the minus sign is ignored: currency symbols, thousands
    separators and blanks can be dropped without changing the result. *)
Theorem normalize_amount_ignores_symbols (s1 s2 : string) (c : ascii) :
  Chars.isdigit c = false -> c <> "."%char -> c <> "-"%char ->
  normalize_amount (Some (AStr (s1 ++ String c s2)))
  = normalize_amount (Some (AStr (s1 ++ s2))).
Proof.
  intros Hd Hp Hm. unfold normalize_amount, clean_amount.
  rewrite !chars_app, !filter_app. f_equal. f_equal.
  change (Str.chars (String c s2)) with (c :: Str.chars s2).
  apply filter_cons_False.
  rewrite Hd. apply Ascii.eqb_neq in Hp, Hm. rewrite Hp, Hm. cbn. auto.
Qed.

Lemma normalize_amount_ignores_symbols_witness :
  normalize_amount (Some (AStr "$1,234.56")) = normalize_amount (Some (AStr "$1234.56")).
Proof.
  apply (normalize_amount_ignores_symbols "$1" "234.56" ","); [reflexivity| |];
    intros H; discriminate H.
Defined.

(** ** More on the date normaliser *)

Lemma code_digit (n : N) : Chars.code (Strptime.digit n) = (48 + n mod 10)%N.
Proof.
  unfold Chars.code, Strptime.digit.
  pose proof (N.mod_upper_bound n 10 ltac:(discriminate)) as Hm.
  generalize dependent (n mod 10)%N. intros r Hr.
  apply N_ascii_embedding. lia.
Qed.

Lemma digit_not_space (n : N) : Chars.isspace (Strptime.digit n) = false.
Proof.
  unfold Chars.isspace, Chars.between. rewrite code_digit.
  pose proof (N.mod_upper_bound n 10 ltac:(discriminate)) as Hm.
  generalize dependent (n mod 10)%N. intros r Hr.
  repeat match goal with
    | |- context [(?a <=? ?b)%N] => destruct (N.leb_spec a b)
    | |- context [(?a =? ?b)%N] => destruct (N.eqb_spec a b)
    end; cbn; try reflexivity; lia.
Qed.

(** Reading back the four digits of a year. *)
Lemma int_of_year (y : N) :
  (y <= 9999)%N ->
  Strptime.int_of [Strptime.digit (y / 1000); Strptime.digit (y / 100);
                   Strptime.digit (y / 10); Strptime.digit y] = y.
Proof.
  intros Hy. unfold Strptime.int_of. cbn [fold_left].
  rewrite !digit_isdigit, !code_digit.
  pose proof (N.div_mod' y 10) as E0.
  pose proof (N.div_mod' (y / 10) 10) as E1.
  pose proof (N.div_mod' (y / 100) 10) as E2.
  pose proof (N.div_mod' (y / 1000) 10) as E3.
  rewrite (N.Div0.div_div y 10 10) in E1.
  rewrite (N.Div0.div_div y 100 10) in E2.
  rewrite (N.Div0.div_div y 1000 10) in E3.
  change (10 * 10)%N with 100%N in E1.
  change (100 * 10)%N with 1000%N in E2.
  change (1000 * 10)%N with 10000%N in E3.
  rewrite (N.div_small y 10000) in E3 by lia.
  pose proof (N.mod_upper_bound y 10 ltac:(discriminate)) as B0.
  pose proof (N.mod_upper_bound (y / 10) 10 ltac:(discriminate)) as B1.
  pose proof (N.mod_upper_bound (y / 100) 10 ltac:(discriminate)) as B2.
  pose proof (N.mod_upper_bound (y / 1000) 10 ltac:(discriminate)) as B3.
  set (d0 := (y mod 10)%N) in *. set (d1 := ((y / 10) mod 10)%N) in *.
  set (d2 := ((y / 100) mod 10)%N) in *. set (d3 := ((y / 1000) mod 10)%N) in *.
  set (q1 := (y / 10)%N) in *. set (q2 := (y / 100)%N) in *.
  set (q3 := (y / 1000)%N) in *.
  clearbody d0 d1 d2 d3 q1 q2 q3.
  lia.
Qed.

Lemma first_success_head {A B : Type} (k : A -> option B) (a : A) (alts : list A) (b : B) :
  k a = Some b -> Strptime.first_success k (a :: alts) = Some b.
Proof. intros H. cbn [Strptime.first_success]. rewrite H. reflexivity. Qed.

(** The first alternative that reads a printed year, month or day
    gives the number back. *)
Lemma candidates_year (y : N) (rest : list ascii) :
  (y <= 9999)%N ->
  Strptime.candidates Strptime.DY
    (Strptime.digit (y / 1000) :: Strptime.digit (y / 100)
       :: Strptime.digit (y / 10) :: Strptime.digit y :: rest)
  = [(y, rest)].
Proof.
  intros Hy. unfold Strptime.candidates, Strptime.alt4.
  rewrite !digit_isdigit, (int_of_year y Hy). reflexivity.
Qed.

Lemma candidates_month (m : N) (rest : list ascii) :
  (1 <= m <= 12)%N ->
  exists alts,
    Strptime.candidates Strptime.Dm (Strptime.digit (m / 10) :: Strptime.digit m :: rest)
    = (m, rest) :: alts.
Proof.
  intros Hm. destruct m as [|p]; [lia|].
  repeat (destruct p as [p|p|]; try lia); eexists; reflexivity.
Qed.

Lemma candidates_day (d : N) (rest : list ascii) :
  (1 <= d <= 31)%N ->
  exists alts,
    Strptime.candidates Strptime.Dd (Strptime.digit (d / 10) :: Strptime.digit d :: rest)
    = (d, rest) :: alts.
Proof.
  intros Hd. destruct d as [|p]; [lia|].
  repeat (destruct p as [p|p|]; try lia); eexists; reflexivity.
Qed.

Lemma valid_date_bounds (f : Strptime.found) :
  Strptime.valid_date f = true ->
  (1 <= Strptime.year f <= 9999)%N /\ (1 <= Strptime.month f <= 12)%N
  /\ (1 <= Strptime.day f <= 31)%N.
Proof.
  unfold Strptime.valid_date. intros H.
  repeat (apply andb_true_iff in H as [H ?]).
  repeat match goal with H : (_ <=? _)%N = true |- _ => apply N.leb_le in H end.
  split; [lia|]. split; [lia|]. split; [lia|].
  assert (Hdim : (Strptime.days_in_month (Strptime.year f) (Strptime.month f) <= 31)%N).
  { unfold Strptime.days_in_month.
    destruct (Strptime.month f) as [|[[[[]|[]|]|[[]|[]|]|]|[[[]|[]|]|[[]|[]|]|]|]];
      try destruct (Strptime.is_leap _); lia. }
  lia.
Qed.

(** X11. Parsing what [strftime] printed gives the date back: for every
    valid date, [strptime(dt.strftime("%Y-%m-%d"), "%Y-%m-%d")] is [dt]. *)
Theorem strptime_strftime (dt : Strptime.found) :
  Strptime.valid_date dt = true ->
  Strptime.strptime (Strptime.strftime dt) "%Y-%m-%d" = Some dt.
Proof.
  intros Hv. destruct (valid_date_bounds dt Hv) as (Hy & Hm & Hd).
  destruct dt as [y m d]. cbn [Strptime.year Strptime.month Strptime.day] in *.
  unfold Strptime.strptime, Strptime.strftime.
  change (Strptime.pattern "%Y-%m-%d")
    with (Some [Strptime.Dir Strptime.DY; Strptime.Lit "-"; Strptime.Dir Strptime.Dm;
                Strptime.Lit "-"; Strptime.Dir Strptime.Dd]).
  rewrite chars_of_chars. cbn [Strptime.year Strptime.month Strptime.day].
  destruct (candidates_month m ("-"%char :: [Strptime.digit (d / 10); Strptime.digit d])
              Hm) as [altm Em].
  destruct (candidates_day d [] Hd) as [altd Ed].
  cbn [Strptime.match_items].
  rewrite (candidates_year y _ (proj2 Hy)). cbn [Strptime.first_success].
  change (Ascii.eqb (Chars.lower "-") (Chars.lower "-")) with true. cbn iota.
  rewrite Em.
  erewrite first_success_head; cycle 1.
  - cbn beta iota. change (Ascii.eqb (Chars.lower "-") (Chars.lower "-")) with true.
    cbn iota. rewrite Ed. cbn [Strptime.first_success]. reflexivity.
  - cbn [Strptime.record Strptime.year Strptime.month Strptime.day].
    rewrite Hv. reflexivity.
Qed.

Lemma strptime_strftime_witness :
  Strptime.strptime
    (Strptime.strftime {| Strptime.year := 2024; Strptime.month := 2; Strptime.day := 29 |})
    "%Y-%m-%d"
  = Some {| Strptime.year := 2024; Strptime.month := 2; Strptime.day := 29 |}.
Proof. apply strptime_strftime. reflexivity. Defined.

Lemma strptime_valid (data fmt : string) (dt : Strptime.found) :
  Strptime.strptime data fmt = Some dt -> Strptime.valid_date dt = true.
Proof.
  unfold Strptime.strptime. destruct (Strptime.pattern fmt) as [its|]; [|discriminate].
  destruct (Strptime.match_items _ _ _) as [[f [|c l]]|]; try discriminate.
  destruct (Strptime.valid_date f) eqn:E; [|discriminate].
  intros H. injection H as <-. exact E.
Qed.

Lemma try_formats_valid (data : string) (fmts : list string) (dt : Strptime.found) :
  try_formats data fmts = Some dt -> Strptime.valid_date dt = true.
Proof.
  induction fmts as [|fmt fmts IH]; cbn [try_formats]; [discriminate|].
  destruct (Strptime.strptime data fmt) as [dt'|] eqn:E; [|exact IH].
  intros H. injection H as <-. eapply strptime_valid. exact E.
Qed.

Lemma strip_strftime (dt : Strptime.found) :
  Str.strip (Strptime.strftime dt) = Strptime.strftime dt.
Proof.
  unfold Str.strip, Strptime.strftime. rewrite chars_of_chars.
  cbn [Str.lstrip]. rewrite digit_not_space.
  cbn [rev app Str.lstrip]. rewrite digit_not_space. reflexivity.
Qed.

(** X12. [normalize_date] gives null exactly on a null or empty input,
    and a non-null result is never the empty string, so that the
    truthiness tests of the matcher only ever reject null dates. *)
Theorem normalize_date_null (d : option string) :
  (normalize_date d = None <-> d = None \/ d = Some ""%string)
  /\ (forall s, normalize_date d = Some s -> s <> ""%string).
Proof.
  unfold normalize_date. destruct d as [[|c s]|]; cbn [Str.truthy negb].
  - split; [split; auto|]. discriminate.
  - split.
    + split; [|intros [H|H]; discriminate H].
      destruct (try_formats _ _); discriminate.
    + intros s'. destruct (try_formats _ _) as [dt|]; intros H; injection H as <-;
        discriminate.
  - split; [split; auto|]. discriminate.
Qed.

(** X13. [normalize_date] is idempotent: a canonical date it produced
    parses back to itself, and a string it passed through passes through
    again. *)
Theorem normalize_date_idempotent (d : option string) :
  normalize_date (normalize_date d) = normalize_date d.
Proof.
  destruct d as [s|]; [|reflexivity].
  destruct (Str.truthy s) eqn:Es.
  2: { assert (H : normalize_date (Some s) = None)
         by (unfold normalize_date; rewrite Es; reflexivity).
       rewrite H. reflexivity. }
  destruct (try_formats (Str.strip s) formats) as [dt|] eqn:Et.
  - assert (H : normalize_date (Some s) = Some (Strptime.strftime dt))
      by (unfold normalize_date; rewrite Es, Et; reflexivity).
    rewrite H. unfold normalize_date.
    change (Str.truthy (Strptime.strftime dt)) with true.
    cbn [negb]. rewrite strip_strftime.
    unfold formats. cbn [try_formats].
    rewrite (strptime_strftime dt (try_formats_valid _ _ _ Et)). reflexivity.
  - assert (H : normalize_date (Some s) = Some s)
      by (unfold normalize_date; rewrite Es, Et; reflexivity).
    rewrite H. exact H.
Qed.

(** X14. Day-first precedence: every valid date written [DD/MM/YYYY] is
    normalised to its canonical form with the first number as the day,
    also when the string could be read month first. *)
Theorem normalize_date_day_first (dt : Strptime.found) :
  Strptime.valid_date dt = true ->
  normalize_date (Some (day_first_slashes dt)) = Some (Strptime.strftime dt).
Proof.
  intros Hv. destruct (valid_date_bounds dt Hv) as (Hy & Hm & Hd).
  destruct dt as [y m d]. cbn [Strptime.year Strptime.month Strptime.day] in *.
  unfold normalize_date, day_first_slashes.
  cbn [Strptime.year Strptime.month Strptime.day Str.of_chars string_of_list_ascii
       Str.truthy negb].
  set (data := [Strptime.digit (d / 10); Strptime.digit d; "/"%char;
                Strptime.digit (m / 10); Strptime.digit m; "/"%char;
                Strptime.digit (y / 1000); Strptime.digit (y / 100);
                Strptime.digit (y / 10); Strptime.digit y]).
  change (String _ _) with (Str.of_chars data).
  assert (Hstrip : Str.strip (Str.of_chars data) = Str.of_chars data).
  { unfold Str.strip, data. rewrite chars_of_chars.
    cbn [Str.lstrip]. rewrite digit_not_space.
    cbn [rev app Str.lstrip]. rewrite digit_not_space. reflexivity. }
  rewrite Hstrip. unfold formats. cbn [try_formats].
  assert (Hiso : Strptime.strptime (Str.of_chars data) "%Y-%m-%d" = None).
  { unfold Strptime.strptime.
    change (Strptime.pattern "%Y-%m-%d")
      with (Some [Strptime.Dir Strptime.DY; Strptime.Lit "-"; Strptime.Dir Strptime.Dm;
                  Strptime.Lit "-"; Strptime.Dir Strptime.Dd]).
    rewrite chars_of_chars. unfold data. cbn [Strptime.match_items Strptime.candidates].
    unfold Strptime.alt4.
    change (Chars.isdigit "/") with false. rewrite !andb_false_r. reflexivity. }
  rewrite Hiso.
  assert (Hdmy : Strptime.strptime (Str.of_chars data) "%d/%m/%Y"
                 = Some {| Strptime.year := y; Strptime.month := m; Strptime.day := d |}).
  { unfold Strptime.strptime.
    change (Strptime.pattern "%d/%m/%Y")
      with (Some [Strptime.Dir Strptime.Dd; Strptime.Lit "/"; Strptime.Dir Strptime.Dm;
                  Strptime.Lit "/"; Strptime.Dir Strptime.DY]).
    rewrite chars_of_chars. unfold data.
    destruct (candidates_day d
                ["/"%char; Strptime.digit (m / 10); Strptime.digit m; "/"%char;
                 Strptime.digit (y / 1000); Strptime.digit (y / 100);
                 Strptime.digit (y / 10); Strptime.digit y] Hd) as [altd Ed].
    destruct (candidates_month m
                ["/"%char; Strptime.digit (y / 1000); Strptime.digit (y / 100);
                 Strptime.digit (y / 10); Strptime.digit y] Hm) as [altm Em].
    cbn [Strptime.match_items]. rewrite Ed.
    erewrite first_success_head; cycle 1.
    - cbn beta iota. change (Ascii.eqb (Chars.lower "/") (Chars.lower "/")) with true.
      cbn iota. rewrite Em.
      erewrite first_success_head; [reflexivity|].
      cbn beta iota. change (Ascii.eqb (Chars.lower "/") (Chars.lower "/")) with true.
      cbn iota. rewrite (candidates_year y [] (proj2 Hy)).
      cbn [Strptime.first_success]. reflexivity.
    - cbn [Strptime.record Strptime.year Strptime.month Strptime.day].
      rewrite Hv. reflexivity. }
  rewrite Hdmy. reflexivity.
Qed.

Lemma normalize_date_day_first_witness :
  normalize_date (Some "03/04/2024"%string) = Some "2024-04-03"%string.
Proof.
  apply (normalize_date_day_first
           {| Strptime.year := 2024; Strptime.month := 4; Strptime.day := 3 |}).
  reflexivity.
Defined.

(** ** Trend arrows *)

Lemma trend_arrow_cases (current previous : Q) :
  (- (5 # 1000) < current - previous /\ current - previous < 5 # 1000
   /\ trend_arrow current previous = ArrowRight)
  \/ (5 # 1000 <= current - previous /\ trend_arrow current previous = ArrowUp)
  \/ (current - previous <= - (5 # 1000) /\ trend_arrow current previous = ArrowDown).
Proof.
  unfold trend_arrow.
  destruct (Qltb (Qabs (current - previous)) (5 # 1000)) eqn:E.
  - apply Qltb_lt, Qabs_Qlt_condition in E. left. tauto.
  - apply Qltb_ge in E.
    assert (Hn : ~ (- (5 # 1000) < current - previous < 5 # 1000)).
    { intros H. apply Qabs_Qlt_condition in H. lra. }
    destruct (Qltb 0 (current - previous)) eqn:E0.
    + apply Qltb_lt in E0. right. left. split; [lra|reflexivity].
    + apply Qltb_ge in E0. right. right. split; [lra|reflexivity].
Qed.

(** X15. The arrow is the right arrow exactly when the two values
    differ by less than 0.005, and otherwise it is the up arrow when the
    current value is the larger and the down arrow when it is the
    smaller; so exchanging the two values keeps a right arrow and turns
    an up arrow into a down arrow and back. *)
Theorem trend_arrow_antisymmetric (current previous : Q) :
  (trend_arrow current previous = ArrowRight <-> Qabs (current - previous) < 5 # 1000)
  /\ (trend_arrow current previous = ArrowUp <-> 5 # 1000 <= current - previous)
  /\ (trend_arrow current previous = ArrowDown <-> 5 # 1000 <= previous - current)
  /\ (trend_arrow current previous = ArrowRight <-> trend_arrow previous current = ArrowRight)
  /\ (trend_arrow current previous = ArrowUp <-> trend_arrow previous current = ArrowDown).
Proof.
  rewrite Qabs_Qlt_condition.
  destruct (trend_arrow_cases current previous) as [(H1 & H2 & ->)|[(H & ->)|(H & ->)]];
    destruct (trend_arrow_cases previous current) as [(G1 & G2 & ->)|[(G & ->)|(G & ->)]];
    try lra;
    repeat split; try discriminate; try reflexivity; try lra; intros; try lra.
Qed.

(** ** Threshold validation *)

(** A check is in order when its metric has no threshold or has a
    result at or above its threshold. *)
Lemma check_metric_failures (thresholds results : Validate.numbers) (t : Validate.tally)
  (c : string * string) :
  Validate.failures (Validate.check_metric thresholds results t c) = []
  <-> Validate.failures t = []
      /\ (forall threshold,
            Validate.lookup_number thresholds (fst c) = Some threshold ->
            exists actual,
              Validate.lookup_number results (fst c) = Some actual /\ threshold <= actual).
Proof.
  destruct c as [key name]. unfold Validate.check_metric. cbn [fst].
  destruct (Validate.lookup_number thresholds key) as [threshold|].
  - destruct (Validate.lookup_number results key) as [actual|].
    + destruct (Qle_bool threshold actual) eqn:E; cbn [Validate.failures].
      * apply Qle_bool_iff in E. split.
        -- intros H. split; [exact H|]. intros t' Ht. injection Ht as <-. eauto.
        -- tauto.
      * split.
        -- intros H. destruct (Validate.failures t); discriminate H.
        -- intros [_ H]. destruct (H threshold eq_refl) as (a & Ha & Hle).
           injection Ha as <-. apply Qle_bool_iff in Hle. congruence.
    + cbn [Validate.failures]. split.
      * intros H. destruct (Validate.failures t); discriminate H.
      * intros [_ H]. destruct (H threshold eq_refl) as (a & Ha & _). discriminate Ha.
  - cbn [Validate.failures]. split; [|tauto].
    intros H. split; [exact H|]. intros t' Ht. discriminate Ht.
Qed.

Lemma run_checks_failures (thresholds results : Validate.numbers)
  (cs : list (string * string)) :
  forall t,
    Validate.failures (fold_left (Validate.check_metric thresholds results) cs t) = []
    <-> Validate.failures t = []
        /\ Forall (fun c =>
                     forall threshold,
                       Validate.lookup_number thresholds (fst c) = Some threshold ->
                       exists actual,
                         Validate.lookup_number results (fst c) = Some actual
                         /\ threshold <= actual) cs.
Proof.
  induction cs as [|c cs IH]; intros t; cbn [fold_left].
  - split; [intros H; split; [exact H|constructor]|tauto].
  - rewrite IH, check_metric_failures, Forall_cons. tauto.
Qed.

(** X16. The validation exits with 0 or 1, and with 0 exactly when the
    benchmark file exists, its overall results are not empty, and each
    of the four tracked metrics that has a threshold has a result at or
    above it.  A metric without a threshold never makes it fail. *)
Theorem validate_exit_code (file : option Validate.benchmark) :
  (Validate.main file = 0%Z \/ Validate.main file = 1%Z)
  /\ (Validate.main file = 0%Z <->
      exists data,
        file = Some data
        /\ size (default ∅ (default (Some ∅) (Validate.results data))) <> 0%nat
        /\ Forall (fun key =>
                     forall threshold,
                       Validate.lookup_number (default ∅ (Validate.thresholds data)) key
                       = Some threshold ->
                       exists actual,
                         Validate.lookup_number
                           (default ∅ (default (Some ∅) (Validate.results data))) key
                         = Some actual
                         /\ threshold <= actual)
                  ["f1_score"; "amount_accuracy"; "date_accuracy";
                   "description_accuracy"]%string).
Proof.
  unfold Validate.main. destruct file as [data|].
  2: { split; [right; reflexivity|]. split; [discriminate|].
       intros (data & H & _). discriminate H. }
  set (thr := default ∅ (Validate.thresholds data)).
  set (res := default ∅ (default (Some ∅) (Validate.results data))).
  destruct (size res =? 0)%nat eqn:Es.
  { apply Nat.eqb_eq in Es. split; [right; reflexivity|]. split; [discriminate|].
    intros (data' & H & Hne & _). injection H as <-. contradiction. }
  apply Nat.eqb_neq in Es.
  pose proof (run_checks_failures thr res Validate.checks
                {| Validate.printed := []; Validate.failures := []; Validate.passes := [] |})
    as Hrun.
  fold (Validate.run_checks thr res) in Hrun.
  destruct (Validate.failures (Validate.run_checks thr res)) as [|l ls].
  - split; [left; reflexivity|]. split; [|reflexivity].
    intros _. exists data. split; [reflexivity|]. split; [exact Es|].
    destruct Hrun as [Hrun _]. destruct (Hrun eq_refl) as [_ Hall].
    unfold Validate.checks in Hall.
    repeat match goal with
      | H : Forall _ (_ :: _) |- _ => apply Forall_cons in H as [? H]
      end.
    repeat constructor; assumption.
  - split; [right; reflexivity|]. split; [discriminate|].
    intros (data' & H & _ & Hall). injection H as <-. exfalso.
    destruct Hrun as [_ Hrun]. discriminate Hrun. split; [reflexivity|].
    unfold Validate.checks.
    repeat match goal with
      | H : Forall _ (_ :: _) |- _ => apply Forall_cons in H as [? H]
      end.
    repeat constructor; assumption.
Qed.

(** ** More on the run history *)

Section HistoryRuns.

Context {json : Type} (empty unknown : json).

Lemma append_history_runs (x : script_run json) (file : option (History.history json)) :
  History.append_history json empty unknown (sr_now x) (sr_sha x) file (sr_new x)
    (sr_run_id x)
  = {| History.runs :=
         Some (History.last50 json
                 (default [] (History.runs json (History.load_json json file))
                  ++ [entry_of empty unknown x])) |}.
Proof.
  unfold History.append_history. f_equal. f_equal.
  fold (entry_of empty unknown x).
  change (match History.runs json (History.load_json json file) with
          | Some l => l | None => [] end)
    with (default [] (History.runs json (History.load_json json file))).
  set (l1 := _ ++ [entry_of empty unknown x]).
  destruct (50 <? length l1)%nat eqn:E; [reflexivity|].
  apply Nat.ltb_ge in E. symmetry. apply last50_short. exact E.
Qed.

(** Truncating first changes nothing for what is appended later. *)
Lemma last50_app (l k : list (History.entry json)) :
  History.last50 json (History.last50 json l ++ k) = History.last50 json (l ++ k).
Proof.
  unfold History.last50.
  rewrite <- (drop_app_le l k (length l - 50)) by lia.
  rewrite drop_drop. f_equal. rewrite length_drop, !length_app. lia.
Qed.

(** X17. Running the update script several times in a row leaves the
    last 50 entries of the prior history followed by the entries of
    these runs, in order: truncation at each run loses nothing that the
    final truncation would keep. *)
Theorem append_runs_keeps_last_50 (file : option (History.history json))
  (xs : list (script_run json)) :
  xs <> [] ->
  append_runs empty unknown file xs
  = Some {| History.runs :=
              Some (History.last50 json
                      (default [] (History.runs json (History.load_json json file))
                       ++ map (entry_of empty unknown) xs)) |}.
Proof.
  revert file. induction xs as [|x xs IH]; intros file Hne; [contradiction|].
  change (append_runs empty unknown file (x :: xs))
    with (append_runs empty unknown
            (Some (History.append_history json empty unknown (sr_now x) (sr_sha x) file
                     (sr_new x) (sr_run_id x))) xs).
  rewrite append_history_runs.
  destruct xs as [|x' xs].
  - reflexivity.
  - rewrite IH by discriminate. cbn [History.load_json History.runs default].
    unfold id. rewrite last50_app, <- (assoc_L (++)). reflexivity.
Qed.

End HistoryRuns.

Lemma append_runs_keeps_last_50_witness :
  append_runs tt tt (Some fifty_runs)
    [{| sr_now := "t"; sr_sha := "abc1234";
        sr_new := {| History.nr_model := Some None; History.nr_results := Some None |};
        sr_run_id := pretty 50%nat |};
     {| sr_now := "t"; sr_sha := "abc1234";
        sr_new := {| History.nr_model := Some None; History.nr_results := Some None |};
        sr_run_id := pretty 51%nat |}]
  = Some {| History.runs := Some (map run_named (seq 2 50)) |}.
Proof.
  rewrite append_runs_keeps_last_50 by discriminate. reflexivity.
Defined.

(** ** The evaluation of one file *)

Lemma compute_metrics_matched_count (ms : list TransactionMatch) (n : Z) :
  exists mt,
    compute_metrics ms n = Some mt
    /\ matched_count mt = length (filter (fun m => Is_true (is_matched m)) ms).
Proof.
  destruct ms as [|m0 ms].
  - eexists. split; reflexivity.
  - eexists. split; [apply compute_metrics_cons|reflexivity].
Qed.

Section RunnerFacts.

Context {page_error exn : Type}.
Context (ModalClient : option (option string -> exn + Runner.modal_client page_error exn)).
Context (ParallelExtractor :
           option (string -> string -> Z -> Runner.path -> string
                   -> exn + Runner.extraction page_error)).
Context (LocalExtractor :
           option (string -> string -> Runner.path -> string
                   -> exn + Runner.extraction page_error)).


End RunnerFacts.


(** ** More on the fuzzy text matcher: words and case *)

Lemma split_empty_string : Str.split "" = [].
Proof. reflexivity. Qed.

(** X20. Two texts whose normalised forms have the same non-empty set
    of words, in whatever order and number, score at least 0.9. *)
Theorem fuzzy_match_score_same_words (pred truth : option string) :
  (list_to_set (Str.split (normalize_text pred)) : gset string)
  = list_to_set (Str.split (normalize_text truth)) ->
  (list_to_set (Str.split (normalize_text pred)) : gset string) <> ∅ ->
  9 # 10 <= fuzzy_match_score pred truth.
Proof.
  unfold fuzzy_match_score.
  set (p := normalize_text pred). set (t := normalize_text truth).
  intros Heq Hne.
  assert (Hp : Str.truthy p = true).
  { destruct p; [|reflexivity]. exfalso. apply Hne. reflexivity. }
  assert (Ht : Str.truthy t = true).
  { destruct t; [|reflexivity]. exfalso. apply Hne. rewrite Heq. reflexivity. }
  rewrite Hp, Ht. cbn [negb orb].
  destruct (String.eqb p t); [discriminate|].
  destruct (Str.contains p t || Str.contains t p); [apply Qle_refl|].
  rewrite <- Heq.
  rewrite (bool_decide_eq_false_2 _ Hne). cbn [orb].
  rewrite (idemp_L (∩)), (idemp_L (∪)).
  set (n := size (list_to_set (Str.split p) : gset string)).
  assert (Hn : (0 < n)%nat).
  { apply Nat.neq_0_lt_0. intros H0. apply size_empty_iff in H0.
    apply Hne, leibniz_equiv, H0. }
  unfold ratio. apply Qle_shift_div_l.
  - apply (Q_of_nat_pos n Hn).
  - pose proof (Q_of_nat_nonneg n) as H0. unfold Q_of_nat in H0. lra.
Qed.

Lemma fuzzy_match_score_same_words_witness :
  9 # 10 <= fuzzy_match_score (Some "Coffee Shop, Inc."%string) (Some "inc shop COFFEE"%string).
Proof.
  apply fuzzy_match_score_same_words.
  - vm_compute. reflexivity.
  - vm_compute. discriminate.
Defined.

Lemma str_lower_idempotent (s : string) : Str.lower (Str.lower s) = Str.lower s.
Proof.
  unfold Str.lower. rewrite chars_of_chars, map_map. f_equal.
  apply map_ext. intros c. apply lower_idempotent.
Qed.

Lemma str_lower_truthy (s : string) : Str.truthy (Str.lower s) = Str.truthy s.
Proof. destruct s; reflexivity. Qed.

(** X21. Letter case is ignored: a text and its lower-cased form
    normalise to the same string, and so score the same against any
    other text. *)
Theorem normalize_text_ignores_case (s : string) :
  normalize_text (Some (Str.lower s)) = normalize_text (Some s)
  /\ forall other : option string,
       fuzzy_match_score (Some (Str.lower s)) other = fuzzy_match_score (Some s) other
       /\ fuzzy_match_score other (Some (Str.lower s)) = fuzzy_match_score other (Some s).
Proof.
  assert (H : normalize_text (Some (Str.lower s)) = normalize_text (Some s)).
  { unfold normalize_text. rewrite str_lower_truthy, str_lower_idempotent. reflexivity. }
  split; [exact H|]. intros other. unfold fuzzy_match_score. rewrite H.
  split; reflexivity.
Qed.
